(** * MOOC course tracker: server routes and client save scheduler

    A shallow embedding of [server.js] (the Express routes over the SQLite
    tables [users], [texts] and [progress]) and of the [MOOCApp] client
    class ([public/app.js], and the later copy of the class that follows
    [server.js] in the same source file), with the properties of the
    session / progress / draft core stated over them.

    Conventions of the model.
    - A table is the list of its rows in rowid order.  A [SELECT] without
      [ORDER BY] on a table without index is a scan in that order, and
      [db.get] keeps the first row of the scan; [progress] has the index of
      its primary key, and a [SELECT] by [user_id] follows that index.
    - A value bound to the [task_id] or [last_task] column is taken as the
      column stores it, that is after SQLite applied the column's INTEGER
      affinity (the route text 7 is the integer 7, the text abc stays a
      text).  Real numbers are left out.
    - [CURRENT_TIMESTAMP], [uuidv4()] and the clock of [jsonwebtoken] are
      inputs of a request.
    - A signed token is symbolic: it records the key it was signed with,
      its payload and its issue time.
    - Strings are [string]; [String.length] stands for the JavaScript
      [length] of the text. *)

From Stdlib Require Import ZArith List String Bool Arith Lia.
Import ListNotations.

Local Open Scope string_scope.
Local Open Scope Z_scope.

(** ** Values *)

(** What a statement parameter holds once bound to an INTEGER column. *)
Inductive sqlval : Type :=
| SqlNull
| SqlInt (z : Z)
| SqlText (s : string).

(** The [:taskId] route parameter as the [task_id] column holds it.  A
    route parameter is never absent, so there is no NULL here. *)
Inductive task_key : Type :=
| TaskInt (z : Z)
| TaskText (s : string).

Definition task_key_eqb (a b : task_key) : bool :=
  match a, b with
  | TaskInt x, TaskInt y => Z.eqb x y
  | TaskText x, TaskText y => String.eqb x y
  | _, _ => false
  end.

(** JavaScript truthiness of a value read back from a row. *)
Definition js_truthy (v : sqlval) : bool :=
  match v with
  | SqlNull => false
  | SqlInt z => negb (Z.eqb z 0)
  | SqlText s => negb (String.eqb s "")
  end.

(** [v || d]. *)
Definition js_or (v d : sqlval) : sqlval :=
  if js_truthy v then v else d.

(** ** Tables (server.js, lines 41-66) *)

(** [users]: [id TEXT PRIMARY KEY], [username TEXT UNIQUE NOT NULL],
    [created_at], [last_task INTEGER DEFAULT 1]. *)
Record user_row : Type := mkUser {
  user_id : string;
  user_username : string;
  user_created_at : Z;
  user_last_task : sqlval
}.

(** [texts]: [id INTEGER PRIMARY KEY AUTOINCREMENT], [user_id], [task_id],
    [content], [updated_at].  The only key of the table is [id]. *)
Record text_row : Type := mkText {
  text_id : Z;
  text_user_id : string;
  text_task_id : task_key;
  text_content : option string;
  text_updated_at : Z
}.

(** [progress]: [user_id], [task_id], [completed BOOLEAN], [completion_date],
    [PRIMARY KEY(user_id, task_id)].  SQLite has no boolean; TRUE is 1. *)
Record progress_row : Type := mkProgress {
  progress_user_id : string;
  progress_task_id : task_key;
  progress_completed : Z;
  progress_completion_date : Z
}.

Record database : Type := mkDb {
  users : list user_row;
  texts : list text_row;
  texts_seq : Z;              (* largest rowid ever used by [texts] *)
  progress : list progress_row
}.

Definition empty_db : database := mkDb [] [] 0 [].

Definition SQL_TRUE : Z := 1.

(** ** Statements *)

(** [INSERT INTO users (id, username) VALUES (?, ?)]; [None] is the
    error [UNIQUE constraint failed] (on [id] or on [username]). *)
Definition insert_user (id name : string) (now : Z) (db : database)
  : option database :=
  if existsb (fun u => String.eqb (user_id u) id
                       || String.eqb (user_username u) name) (users db)
  then None
  else Some (mkDb (users db ++ [mkUser id name now (SqlInt 1)])
                  (texts db) (texts_seq db) (progress db)).

(** [SELECT * FROM users WHERE username = ?] through [db.get]. *)
Definition select_user_by_username (name : string) (db : database)
  : option user_row :=
  find (fun u => String.eqb (user_username u) name) (users db).

(** [SELECT username, last_task FROM users WHERE id = ?] through [db.get]. *)
Definition select_user_by_id (id : string) (db : database)
  : option user_row :=
  find (fun u => String.eqb (user_id u) id) (users db).

(** [UPDATE users SET last_task = ? WHERE id = ?]. *)
Definition update_last_task (v : sqlval) (id : string) (db : database)
  : database :=
  mkDb (map (fun u => if String.eqb (user_id u) id
                      then mkUser (user_id u) (user_username u)
                                  (user_created_at u) v
                      else u) (users db))
       (texts db) (texts_seq db) (progress db).

(** [INSERT OR REPLACE INTO texts (user_id, task_id, content, updated_at)
    VALUES (?, ?, ?, CURRENT_TIMESTAMP)].  No [id] is given, so
    AUTOINCREMENT gives the row a rowid above every rowid used so far.
    REPLACE deletes the rows that conflict on a key; the only key is [id],
    and a new rowid conflicts with none, so the row is appended. *)
Definition insert_or_replace_text (uid : string) (task : task_key)
    (c : option string) (now : Z) (db : database) : database :=
  let id := texts_seq db + 1 in
  mkDb (users db)
       (texts db ++ [mkText id uid task c now])
       id (progress db).

(** [SELECT content FROM texts WHERE user_id = ? AND task_id = ?] through
    [db.get]: first matching row of the scan. *)
Definition select_text (uid : string) (task : task_key) (db : database)
  : option text_row :=
  find (fun r => String.eqb (text_user_id r) uid
                 && task_key_eqb (text_task_id r) task) (texts db).

(** [INSERT OR REPLACE INTO progress (user_id, task_id, completed,
    completion_date) VALUES (?, ?, TRUE, CURRENT_TIMESTAMP)]: the row with
    the same primary key, if any, is deleted first. *)
Definition insert_or_replace_progress (uid : string) (task : task_key)
    (now : Z) (db : database) : database :=
  mkDb (users db) (texts db) (texts_seq db)
       (filter (fun r => negb (String.eqb (progress_user_id r) uid
                               && task_key_eqb (progress_task_id r) task))
               (progress db)
          ++ [mkProgress uid task SQL_TRUE now]).

(** The order of [task_id] in the index of the primary key: integers by
    value and before every text, texts byte by byte. *)
Definition task_key_leb (a b : task_key) : bool :=
  match a, b with
  | TaskInt x, TaskInt y => Z.leb x y
  | TaskInt _, TaskText _ => true
  | TaskText _, TaskInt _ => false
  | TaskText x, TaskText y => String.leb x y
  end.

Fixpoint insert_by_task (r : progress_row) (l : list progress_row)
  : list progress_row :=
  match l with
  | [] => [r]
  | x :: rest =>
      if task_key_leb (progress_task_id r) (progress_task_id x)
      then r :: x :: rest
      else x :: insert_by_task r rest
  end.

(** The rows of one learner as the index of [PRIMARY KEY(user_id,
    task_id)] lists them: by [task_id], rows of one key in rowid order. *)
Fixpoint index_order (l : list progress_row) : list progress_row :=
  match l with
  | [] => []
  | r :: rest => insert_by_task r (index_order rest)
  end.

(** [SELECT task_id, completed FROM progress WHERE user_id = ?] through
    [db.all].  The rows of the learner are found through the index of the
    primary key, so they come in the order of [task_id]. *)
Definition select_progress (uid : string) (db : database)
  : list (task_key * Z) :=
  map (fun r => (progress_task_id r, progress_completed r))
      (index_order
         (filter (fun r => String.eqb (progress_user_id r) uid)
                 (progress db))).

(** ** Tokens *)

(** A word of the [Authorization] header after [split(' ')]. *)
Inductive bearer : Type :=
| Signed (key : string) (userId : string) (iat : Z)
| Raw (text : string).

(** [expiresIn: '30d'], in seconds. *)
Definition THIRTY_DAYS : Z := 30 * 24 * 60 * 60.

(** [jwt.sign({ userId }, key, { expiresIn: '30d' })] at time [now]. *)
Definition jwt_sign (userId key : string) (now : Z) : bearer :=
  Signed key userId now.

(** [jwt.verify(token, key, callback)]: [Some decoded.userId], or [None]
    for [err] (bad signature, malformed text, or [now >= exp]). *)
Definition jwt_verify (token : bearer) (key : string) (now : Z)
  : option string :=
  match token with
  | Signed k uid iat =>
      if String.eqb k key && Z.ltb now (iat + THIRTY_DAYS)
      then Some uid else None
  | Raw _ => None
  end.

(** [process.env.JWT_SECRET || 'your-secret-key-change-in-production']. *)
Definition JWT_SECRET (env : option string) : string :=
  match env with
  | Some s => if String.eqb s "" then "your-secret-key-change-in-production"
              else s
  | None => "your-secret-key-change-in-production"
  end.

(** ** Requests and replies *)

Inductive route : Type :=
| PostAuthRegister
| PostAuthLogin
| GetUserProgress
| PostUserLastTask
| PostTaskText (taskId : task_key)
| GetTaskText (taskId : task_key)
| PostTaskComplete (taskId : task_key).

Record request : Type := mkReq {
  req_route : route;
  authorization : option (list bearer);  (* header, split at spaces *)
  body_username : option string;
  body_taskId : sqlval;
  body_content : option string
}.

Inductive json : Type :=
| JError (error : string)
| JAuth (token : bearer) (username userId : string) (lastTask : sqlval)
| JProgress (username : string) (lastTask : sqlval)
            (entries : list (task_key * Z))
| JSuccess
| JContent (content : option string).

(** [Uncaught] is an exception thrown inside a database callback. *)
Inductive reply : Type :=
| Reply (status : Z) (body : json)
| Uncaught.

(** What a request meets when it arrives. *)
Record arrival : Type := mkArrival {
  arrival_now : Z;          (* clock, seconds *)
  arrival_uuid : string;    (* what [uuidv4()] would return *)
  arrival_request : request
}.

(** ** Middleware and routes *)

(** [!token] for the second word of the header. *)
Definition no_token (t : option bearer) : bool :=
  match t with
  | None => true
  | Some (Raw text) => String.eqb text ""
  | Some (Signed _ _ _) => false
  end.

(** [req.headers['authorization']?.split(' ')[1]]. *)
Definition bearer_token (req : request) : option bearer :=
  match authorization req with
  | Some words => nth_error words 1
  | None => None
  end.

(** [verifyToken] (lines 69-83); [next] receives [req.userId]. *)
Definition verifyToken (secret : string) (now : Z) (req : request)
    (next : string -> database -> reply * database) (db : database)
  : reply * database :=
  let token := bearer_token req in
  if no_token token
  then (Reply 401 (JError "No token provided"), db)
  else match token with
       | Some t =>
           match jwt_verify t secret now with
           | None => (Reply 401 (JError "Invalid token"), db)
           | Some uid => next uid db
           end
       | None => (Reply 401 (JError "No token provided"), db)
       end.

(** [POST /api/auth/register] (lines 93-113). *)
Definition post_auth_register (secret : string) (now : Z) (uuid : string)
    (req : request) (db : database) : reply * database :=
  match body_username req with
  | None => (Reply 400 (JError "Username must be at least 3 characters"), db)
  | Some name =>
      if String.eqb name "" || Nat.ltb (String.length name) 3
      then (Reply 400 (JError "Username must be at least 3 characters"), db)
      else
        let userId := uuid in
        match insert_user userId name now db with
        | None => (Reply 409 (JError "Username already exists"), db)
        | Some db' =>
            (Reply 200 (JAuth (jwt_sign userId secret now) name userId
                              (SqlInt 1)), db')
        end
  end.

(** [POST /api/auth/login] (lines 116-136).  An absent [username] is bound
    as NULL and matches no row. *)
Definition post_auth_login (secret : string) (now : Z) (req : request)
    (db : database) : reply * database :=
  match match body_username req with
        | Some name => select_user_by_username name db
        | None => None
        end with
  | None => (Reply 404 (JError "User not found"), db)
  | Some user =>
      (Reply 200 (JAuth (jwt_sign (user_id user) secret now)
                        (user_username user) (user_id user)
                        (js_or (user_last_task user) (SqlInt 1))), db)
  end.

(** [GET /api/user/progress] (lines 139-157).  With no row for the user,
    [user.username] throws. *)
Definition get_user_progress (uid : string) (db : database)
  : reply * database :=
  match select_user_by_id uid db with
  | None => (Uncaught, db)
  | Some user =>
      (Reply 200 (JProgress (user_username user)
                            (js_or (user_last_task user) (SqlInt 1))
                            (select_progress uid db)), db)
  end.

(** [POST /api/user/last-task] (lines 160-169). *)
Definition post_user_last_task (req : request) (uid : string)
    (db : database) : reply * database :=
  (Reply 200 JSuccess, update_last_task (body_taskId req) uid db).

(** [POST /api/tasks/:taskId/text] (lines 172-184). *)
Definition post_task_text (now : Z) (taskId : task_key) (req : request)
    (uid : string) (db : database) : reply * database :=
  (Reply 200 JSuccess,
   insert_or_replace_text uid taskId (body_content req) now db).

(** [GET /api/tasks/:taskId/text] (lines 187-197):
    [result ? result.content : '']. *)
Definition get_task_text (taskId : task_key) (uid : string) (db : database)
  : reply * database :=
  (Reply 200 (JContent match select_text uid taskId db with
                       | Some r => text_content r
                       | None => Some ""
                       end), db).

(** [POST /api/tasks/:taskId/complete] (lines 200-211). *)
Definition post_task_complete (now : Z) (taskId : task_key) (uid : string)
    (db : database) : reply * database :=
  (Reply 200 JSuccess, insert_or_replace_progress uid taskId now db).

(** The router. *)
Definition handle (secret : string) (a : arrival) (db : database)
  : reply * database :=
  let now := arrival_now a in
  let req := arrival_request a in
  match req_route req with
  | PostAuthRegister => post_auth_register secret now (arrival_uuid a) req db
  | PostAuthLogin => post_auth_login secret now req db
  | GetUserProgress => verifyToken secret now req get_user_progress db
  | PostUserLastTask =>
      verifyToken secret now req (post_user_last_task req) db
  | PostTaskText t => verifyToken secret now req (post_task_text now t req) db
  | GetTaskText t => verifyToken secret now req (get_task_text t) db
  | PostTaskComplete t =>
      verifyToken secret now req (post_task_complete now t) db
  end.

(** The database after a sequence of requests. *)
Fixpoint serve (secret : string) (arrivals : list arrival) (db : database)
  : database :=
  match arrivals with
  | [] => db
  | a :: rest => serve secret rest (snd (handle secret a db))
  end.

(** ** Observations on the store *)

(** The Draft rows of a (learner, task) pair. *)
Definition draft_rows (uid : string) (task : task_key) (db : database)
  : list text_row :=
  filter (fun r => String.eqb (text_user_id r) uid
                   && task_key_eqb (text_task_id r) task) (texts db).

(** The Progress rows of a (learner, task) pair. *)
Definition progress_rows (uid : string) (task : task_key) (db : database)
  : list progress_row :=
  filter (fun r => String.eqb (progress_user_id r) uid
                   && task_key_eqb (progress_task_id r) task) (progress db).

(** Everything the three tables hold for one learner. *)
Definition rows_of (uid : string) (db : database)
  : list user_row * list text_row * list progress_row :=
  (filter (fun u => String.eqb (user_id u) uid) (users db),
   filter (fun r => String.eqb (text_user_id r) uid) (texts db),
   filter (fun r => String.eqb (progress_user_id r) uid) (progress db)).

(** What a learner's rows hold apart from the rowid of a draft, which no
    route reads: the learner row, the drafts, the progress rows. *)
Definition draft_fields (r : text_row) : task_key * option string * Z :=
  (text_task_id r, text_content r, text_updated_at r).

Definition view_of (uid : string) (db : database)
  : list user_row * list (task_key * option string * Z) * list progress_row :=
  match rows_of uid db with
  | (us, ts, ps) => (us, map draft_fields ts, ps)
  end.

(** The learner [verifyToken] lets a request act for, if any. *)
Definition acts_for (secret : string) (a : arrival) : option string :=
  let token := bearer_token (arrival_request a) in
  if no_token token then None
  else match token with
       | Some t => jwt_verify t secret (arrival_now a)
       | None => None
       end.

(** The routes behind [verifyToken]. *)
Definition protected (r : route) : bool :=
  match r with
  | PostAuthRegister | PostAuthLogin => false
  | _ => true
  end.

(** A task identifier of a course of [N] tasks. *)
Definition valid_task_id (N : Z) (v : sqlval) : bool :=
  match v with
  | SqlInt z => Z.leb 1 z && Z.leb z N
  | _ => false
  end.

Definition last_tasks_valid (N : Z) (db : database) : bool :=
  forallb (fun u => valid_task_id N (user_last_task u)) (users db).

(** The learner has a Progress row for the task with [completed] set. *)
Definition completed_in (uid : string) (task : task_key) (db : database)
  : bool :=
  existsb (fun r => String.eqb (progress_user_id r) uid
                    && task_key_eqb (progress_task_id r) task
                    && Z.eqb (progress_completed r) SQL_TRUE) (progress db).

(** Rowids of [texts] stay at or below the AUTOINCREMENT counter, so the
    rowid a save takes is new. *)
Definition texts_seq_ok (db : database) : Prop :=
  Forall (fun r => text_id r <= texts_seq db) (texts db).

(** What a request can do to the database. *)

Inductive effect (db : database) : database -> Prop :=
| NoEffect : effect db db
| UserInserted id name now db' :
    insert_user id name now db = Some db' -> effect db db'
| LastTaskUpdated v uid : effect db (update_last_task v uid db)
| TextInserted uid task c now :
    effect db (insert_or_replace_text uid task c now db)
| ProgressInserted uid task now :
    effect db (insert_or_replace_progress uid task now db).

(** Sample traffic used to evaluate the routes. *)
Definition bearer_header (t : bearer) : option (list bearer) :=
  Some [Raw "Bearer"; t].

Definition alice_token : bearer :=
  jwt_sign "uuid-alice" (JWT_SECRET None) 1000.

Definition register_alice : arrival :=
  mkArrival 1000 "uuid-alice"
    (mkReq PostAuthRegister None (Some "alice") SqlNull None).

Definition alice_saves (at_time : Z) (task : task_key) (text : string)
  : arrival :=
  mkArrival at_time "unused"
    (mkReq (PostTaskText task) (bearer_header alice_token) None SqlNull
           (Some text)).

Definition alice_loads (at_time : Z) (task : task_key) : arrival :=
  mkArrival at_time "unused"
    (mkReq (GetTaskText task) (bearer_header alice_token) None SqlNull None).

Definition alice_completes (at_time : Z) (task : task_key) : arrival :=
  mkArrival at_time "unused"
    (mkReq (PostTaskComplete task) (bearer_header alice_token) None SqlNull
           None).

Definition alice_sets_last_task (at_time : Z) (v : sqlval) : arrival :=
  mkArrival at_time "unused"
    (mkReq PostUserLastTask (bearer_header alice_token) None v None).

Definition alice_gets_progress (at_time : Z) : arrival :=
  mkArrival at_time "unused"
    (mkReq GetUserProgress (bearer_header alice_token) None SqlNull None).

Definition register_bob : arrival :=
  mkArrival 1000 "uuid-bob"
    (mkReq PostAuthRegister None (Some "bob") SqlNull None).

Definition bob_token : bearer :=
  jwt_sign "uuid-bob" (JWT_SECRET None) 1000.

Definition bob_saves (at_time : Z) (task : task_key) (text : string)
  : arrival :=
  mkArrival at_time "unused"
    (mkReq (PostTaskText task) (bearer_header bob_token) None SqlNull
           (Some text)).

(** Two learners; bob has a draft for task 1. *)
Definition alice_and_bob : database :=
  serve (JWT_SECRET None)
    [register_alice; register_bob; bob_saves 1001 (TaskInt 1) "bob's text"]
    empty_db.

(** ** Client: the [MOOCApp] class

    The class exists in two copies.  [PublicApp] is [public/app.js];
    [EmbeddedApp] is the later copy.  They agree on [scheduleAutoSave],
    [saveCurrentText], [loadTaskText] and [updateLastTask] and differ in
    the last step of [completeTask].

    The browser is part of the state: its pending timers, the fetches that
    have not settled yet, and a log of every request sent.  An [await] is
    a suspension: the function's remainder is stored with the fetch and
    runs when the fetch settles.  Times are milliseconds.  Task
    identifiers on this side are the numbers of the course.  What only
    touches the page is left out: rendering, the progress bar, the word
    counter, and the timers that remove the completion and error
    messages. *)

Local Open Scope nat_scope.

Inductive build : Type := PublicApp | EmbeddedApp.

(** The class of [#save-status] set by [setSaveStatus]. *)
Inductive save_status : Type :=
| StatusNone | StatusSaving | StatusSaved | StatusError.

(** What a timer runs when it fires. *)
Inductive callback : Type :=
| AutoSave      (* () => this.saveCurrentText() *)
| NextTask.     (* () => this.loadTask(this.currentTask + 1) *)

Record timer : Type := mkTimer {
  timer_id : nat;
  timer_due : nat;
  timer_callback : callback
}.

Inductive fetch_request : Type :=
| FetchSaveText (taskId : Z) (content : string)
| FetchComplete (taskId : Z)
| FetchProgress
| FetchLoadText (taskId : Z)
| FetchLastTask (taskId : Z).

(** The fields the client reads from a JSON body. *)
Record fetch_data : Type := mkData {
  data_content : option string;
  data_username : string;
  data_lastTask : Z;
  data_progress : list (Z * Z)
}.

Inductive response : Type :=
| Settled (ok : bool) (data : fetch_data)   (* resolved; [response.ok] *)
| Rejected.                                 (* the fetch threw *)

(** Where an async function is suspended. *)
Inductive await_point : Type :=
| InSaveCurrentText (for_complete : bool)
    (* [await fetch] of [saveCurrentText]; [true] when [completeTask]
       awaits the call *)
| InCompleteTaskMark       (* [await fetch(.../complete)] *)
| InCompleteTaskProgress   (* [await this.loadUserProgress()] *)
| InLoadTaskText (taskId : Z)
    (* [await fetch] of [loadTaskText], called by [loadTask(taskId)] *)
| InUpdateLastTask.        (* [await fetch] of [updateLastTask] *)

Record pending_fetch : Type := mkFetch {
  fetch_id : nat;
  fetch_what : fetch_request;
  fetch_then : await_point
}.

Record current_user : Type := mkCurrentUser {
  cu_username : string;
  cu_lastTask : Z;
  cu_progress : list (Z * Z)
}.

Record app : Type := mkApp {
  currentUser : option current_user;
  currentTask : Z;
  saveTimer : option nat;        (* [null], or the id [setTimeout] gave *)
  editor : string;               (* value of [#text-editor] *)
  saveStatus : save_status;
  clock : nat;
  timers : list timer;           (* pending timers, oldest first *)
  next_timer : nat;
  in_flight : list pending_fetch;
  next_fetch : nat;
  sent : list fetch_request      (* every request issued, oldest first *)
}.

(** After the constructor. *)
Definition new_app : app :=
  mkApp None 1%Z None "" StatusNone 0 [] 1 [] 1 [].

Definition with_user (u : option current_user) (a : app) : app :=
  mkApp u (currentTask a) (saveTimer a) (editor a) (saveStatus a) (clock a)
        (timers a) (next_timer a) (in_flight a) (next_fetch a) (sent a).

Definition with_task (t : Z) (a : app) : app :=
  mkApp (currentUser a) t (saveTimer a) (editor a) (saveStatus a) (clock a)
        (timers a) (next_timer a) (in_flight a) (next_fetch a) (sent a).

Definition with_saveTimer (s : option nat) (a : app) : app :=
  mkApp (currentUser a) (currentTask a) s (editor a) (saveStatus a) (clock a)
        (timers a) (next_timer a) (in_flight a) (next_fetch a) (sent a).

Definition with_editor (e : string) (a : app) : app :=
  mkApp (currentUser a) (currentTask a) (saveTimer a) e (saveStatus a)
        (clock a) (timers a) (next_timer a) (in_flight a) (next_fetch a)
        (sent a).

Definition with_clock (c : nat) (a : app) : app :=
  mkApp (currentUser a) (currentTask a) (saveTimer a) (editor a)
        (saveStatus a) c (timers a) (next_timer a) (in_flight a)
        (next_fetch a) (sent a).

Definition with_timers (ts : list timer) (a : app) : app :=
  mkApp (currentUser a) (currentTask a) (saveTimer a) (editor a)
        (saveStatus a) (clock a) ts (next_timer a) (in_flight a)
        (next_fetch a) (sent a).

Definition with_in_flight (fs : list pending_fetch) (a : app) : app :=
  mkApp (currentUser a) (currentTask a) (saveTimer a) (editor a)
        (saveStatus a) (clock a) (timers a) (next_timer a) fs
        (next_fetch a) (sent a).

(** [setSaveStatus(status)]. *)
Definition setSaveStatus (s : save_status) (a : app) : app :=
  mkApp (currentUser a) (currentTask a) (saveTimer a) (editor a) s (clock a)
        (timers a) (next_timer a) (in_flight a) (next_fetch a) (sent a).

(** [setTimeout(cb, delay)]: the id, and the browser with the timer. *)
Definition setTimeout (cb : callback) (delay : nat) (a : app) : nat * app :=
  (next_timer a,
   mkApp (currentUser a) (currentTask a) (saveTimer a) (editor a)
         (saveStatus a) (clock a)
         (timers a ++ [mkTimer (next_timer a) (clock a + delay) cb])
         (S (next_timer a)) (in_flight a) (next_fetch a) (sent a)).

(** [clearTimeout(id)]; an id that is not pending is ignored. *)
Definition clearTimeout (id : nat) (a : app) : app :=
  with_timers (filter (fun t => negb (Nat.eqb (timer_id t) id)) (timers a)) a.

(** [await fetch(...)]: the request leaves, the function is suspended. *)
Definition fetch (r : fetch_request) (k : await_point) (a : app) : app :=
  mkApp (currentUser a) (currentTask a) (saveTimer a) (editor a)
        (saveStatus a) (clock a) (timers a) (next_timer a)
        (in_flight a ++ [mkFetch (next_fetch a) r k])
        (S (next_fetch a)) (sent a ++ [r]).

(** [scheduleAutoSave()] (public/app.js, lines 483-493). *)
Definition scheduleAutoSave (a : app) : app :=
  let a := setSaveStatus StatusSaving a in
  let a := match saveTimer a with
           | Some id => if Nat.eqb id 0 then a else clearTimeout id a
           | None => a
           end in
  let (id, a) := setTimeout AutoSave 2000 a in
  with_saveTimer (Some id) a.

(** [saveCurrentText()] up to its [await] (lines 495-507). *)
Definition saveCurrentText (for_complete : bool) (a : app) : app :=
  let content := editor a in
  fetch (FetchSaveText (currentTask a) content)
        (InSaveCurrentText for_complete) a.

(** [completeTask()] up to its first [await] (lines 520-525). *)
Definition completeTask (a : app) : app :=
  saveCurrentText true a.

(** [loadTask(taskId)] up to the [await] inside [loadTaskText]. *)
Definition loadTask (taskId : Z) (a : app) : app :=
  let a := with_task taskId a in
  fetch (FetchLoadText taskId) (InLoadTaskText taskId) a.

(** The remainder of an async function once its fetch has settled. *)
Definition resume (b : build) (k : await_point) (r : response) (a : app)
  : app :=
  match k with
  | InSaveCurrentText for_complete =>
      (* saveCurrentText, lines 509-517 *)
      let a := match r with
               | Settled true _ => setSaveStatus StatusSaved a
               | Settled false _ => setSaveStatus StatusError a
               | Rejected => setSaveStatus StatusError a
               end in
      (* back in completeTask, lines 527-531 *)
      if for_complete
      then fetch (FetchComplete (currentTask a)) InCompleteTaskMark a
      else a
  | InCompleteTaskMark =>
      (* completeTask: [if (response.ok)] then loadUserProgress *)
      match r with
      | Settled true _ => fetch FetchProgress InCompleteTaskProgress a
      | _ => a
      end
  | InCompleteTaskProgress =>
      match r with
      | Settled true data =>
          (* loadUserProgress: currentUser and currentTask are replaced *)
          let a := with_user (Some (mkCurrentUser (data_username data)
                                      (data_lastTask data)
                                      (data_progress data))) a in
          let a := with_task (data_lastTask data) a in
          (* completeTask: move to next task if available *)
          if Z.ltb (currentTask a) 19
          then match b with
               | PublicApp => loadTask (currentTask a + 1)%Z a
               | EmbeddedApp => snd (setTimeout NextTask 2000 a)
               end
          else a
      | _ => a    (* loadUserProgress threw, caught by completeTask *)
      end
  | InLoadTaskText taskId =>
      (* loadTaskText: [data.content || ''] when [response.ok] *)
      let a := match r with
               | Settled true data =>
                   with_editor match data_content data with
                               | Some c => c
                               | None => ""
                               end a
               | _ => a
               end in
      (* loadTask goes on with updateLastTask(taskId) *)
      fetch (FetchLastTask taskId) InUpdateLastTask a
  | InUpdateLastTask => a
  end.

Definition run_callback (cb : callback) (a : app) : app :=
  match cb with
  | AutoSave => saveCurrentText false a
  | NextTask => loadTask (currentTask a + 1)%Z a
  end.

(** Fires, oldest first, the timers of [ts] due by [limit].  No callback
    of this program sets or clears a timer, and every delay is the same,
    so the list order is the firing order. *)
Fixpoint fire_due (limit : nat) (ts : list timer) (a : app) : app :=
  match ts with
  | [] => a
  | t :: rest =>
      if Nat.leb (timer_due t) limit
      then fire_due limit rest
             (run_callback (timer_callback t)
                (with_clock (Nat.max (clock a) (timer_due t))
                   (clearTimeout (timer_id t) a)))
      else fire_due limit rest a
  end.

Definition settle (b : build) (id : nat) (r : response) (a : app) : app :=
  match find (fun f => Nat.eqb (fetch_id f) id) (in_flight a) with
  | None => a
  | Some f =>
      resume b (fetch_then f) r
        (with_in_flight
           (filter (fun g => negb (Nat.eqb (fetch_id g) id)) (in_flight a))
           a)
  end.

(** What can happen to the page. *)
Inductive event : Type :=
| Input (text : string)     (* [input] on the editor; its value is [text] *)
| ClickSave                 (* save button: saveCurrentText() *)
| ClickComplete             (* complete button: completeTask() *)
| ClickTask (taskId : Z)    (* task link: loadTask(task.id) *)
| Elapse (ms : nat)         (* time passes, due timers fire *)
| Settle (id : nat) (r : response).   (* a fetch settles *)

Definition step (b : build) (a : app) (e : event) : app :=
  match e with
  | Input text => scheduleAutoSave (with_editor text a)
  | ClickSave => saveCurrentText false a
  | ClickComplete => completeTask a
  | ClickTask taskId => loadTask taskId a
  | Elapse ms =>
      with_clock (clock a + ms) (fire_due (clock a + ms) (timers a) a)
  | Settle id r => settle b id r a
  end.

Definition run (b : build) (a : app) (es : list event) : app :=
  fold_left (step b) es a.

(** The save requests among a list of requests. *)
Definition is_save (r : fetch_request) : bool :=
  match r with FetchSaveText _ _ => true | _ => false end.

Definition is_save_for (task : Z) (r : fetch_request) : bool :=
  match r with FetchSaveText t _ => Z.eqb t task | _ => false end.

(** Save requests for [task] that have left and not settled. *)
Definition saves_in_flight (task : Z) (a : app) : nat :=
  List.length (filter (fun f => is_save_for task (fetch_what f)) (in_flight a)).

Definition auto_save_timers (a : app) : list timer :=
  filter (fun t => match timer_callback t with AutoSave => true | _ => false end)
         (timers a).

(** The scheduler's invariant: timer ids are positive and below the next
    id (the browser numbers timers from 1), every pending auto-save timer
    is the one [saveTimer] names, and there is at most one of them. *)
Definition scheduler_ok (a : app) : Prop :=
  1 <= next_timer a
  /\ (forall t, In t (timers a) -> 1 <= timer_id t < next_timer a)
  /\ (forall t, In t (timers a) -> timer_callback t = AutoSave ->
        saveTimer a = Some (timer_id t))
  /\ List.length (auto_save_timers a) <= 1.

(** Ids of the fetches in flight are below the next id. *)
Definition fetches_ok (a : app) : Prop :=
  forall f, In f (in_flight a) -> fetch_id f < next_fetch a.

(** A burst of edits: the first one, then each further edit [gap]
    milliseconds after the one before. *)
Fixpoint burst (text : string) (rest : list (nat * string)) : list event :=
  match rest with
  | [] => [Input text]
  | (gap, text') :: rest' => Input text :: Elapse gap :: burst text' rest'
  end.

Definition last_text (text : string) (rest : list (nat * string)) : string :=
  last (map snd rest) text.

(** A completion of the active task and the three answers it waits for:
    the save, the completion mark, the progress refresh. *)
Definition completion (a : app) (save_answer : response)
    (refresh : fetch_data) : list event :=
  [ClickComplete;
   Settle (next_fetch a) save_answer;
   Settle (S (next_fetch a)) (Settled true (mkData None "" 0%Z []));
   Settle (S (S (next_fetch a))) (Settled true refresh)].

(** ** Further parts of the client

    The word counter of the later copy, the login form, logout, and the
    requests and text answers as they travel between the two sides. *)

Local Open Scope nat_scope.

(** What [trim()] strips and [\s] matches, among the characters a
    [string] can hold: tab, line feed, vertical tab, form feed, carriage
    return, space and no-break space. *)
Definition is_space (c : Ascii.ascii) : bool :=
  let n := Ascii.nat_of_ascii c in
  ((9 <=? n) && (n <=? 13)) || (n =? 32) || (n =? 160).

Fixpoint trimStart (s : string) : string :=
  match s with
  | EmptyString => EmptyString
  | String c rest => if is_space c then trimStart rest else s
  end.

Fixpoint trimEnd (s : string) : string :=
  match s with
  | EmptyString => EmptyString
  | String c rest =>
      match trimEnd rest with
      | EmptyString => if is_space c then EmptyString
                       else String c EmptyString
      | kept => String c kept
      end
  end.

(** [s.trim()]. *)
Definition trim (s : string) : string := trimEnd (trimStart s).

(** [s.split(/\s+/)]: the pieces between the runs of white space, an
    empty piece where the text starts or ends with a run.  [in_run] says
    that the character before was white space. *)
Fixpoint split_from (in_run : bool) (s : string) : list string :=
  match s with
  | EmptyString => [EmptyString]
  | String c rest =>
      if is_space c
      then if in_run then split_from true rest
           else EmptyString :: split_from true rest
      else match split_from false rest with
           | piece :: pieces => String c piece :: pieces
           | [] => [String c EmptyString]
           end
  end.

Definition split_spaces (s : string) : list string := split_from false s.

(** [updateWordCount]: [text ? text.split(/\s+/).length : 0] for the
    trimmed value of the editor. *)
Definition wordCount (value : string) : nat :=
  let text := trim value in
  match text with
  | EmptyString => 0
  | _ => List.length (split_spaces text)
  end.

(** The colour of the counter: [#dc3545], [#ffc107], [#28a745]. *)
Inductive colour : Type := Red | Yellow | Green.

Definition count_colour (count min max : nat) : colour :=
  if count <? min then Red
  else if max <? count then Yellow
  else Green.

(** The number of words of a text, counted directly: the places where a
    character that is no white space follows white space or starts the
    text.  [after_space] says that the character before was white space
    (or that there was none). *)
Fixpoint words_from (after_space : bool) (s : string) : nat :=
  match s with
  | EmptyString => 0
  | String c rest =>
      if is_space c then words_from true rest
      else (if after_space then 1 else 0) + words_from false rest
  end.

Definition words (s : string) : nat := words_from true s.

(** Whether a text read from a given state ends inside white space. *)
Fixpoint ends_in_space (in_run : bool) (s : string) : bool :=
  match s with
  | EmptyString => in_run
  | String c rest => ends_in_space (is_space c) rest
  end.

(** [data.content || '']. *)
Definition content_or_empty (d : fetch_data) : string :=
  match data_content d with Some c => c | None => "" end.

(** [logout()]: the later copy asks [confirm(...)] first. *)
Definition logout (b : build) (confirmed : bool) (a : app) : app :=
  match b with
  | PublicApp => with_task 1%Z (with_user None a)
  | EmbeddedApp =>
      if confirmed then with_task 1%Z (with_user None a) else a
  end.

(** The [Authorization] header the client sends: the word Bearer and the
    stored token, or the text null when nothing is stored. *)
Definition authorization_of (stored : option bearer) : option (list bearer) :=
  Some [Raw "Bearer"; match stored with Some t => t | None => Raw "null" end].

(** The request a fetch of the client is on the server. *)
Definition request_of (stored : option bearer) (r : fetch_request)
  : request :=
  let auth := authorization_of stored in
  match r with
  | FetchSaveText t c =>
      mkReq (PostTaskText (TaskInt t)) auth None SqlNull (Some c)
  | FetchComplete t => mkReq (PostTaskComplete (TaskInt t)) auth None SqlNull None
  | FetchProgress => mkReq GetUserProgress auth None SqlNull None
  | FetchLoadText t => mkReq (GetTaskText (TaskInt t)) auth None SqlNull None
  | FetchLastTask t => mkReq PostUserLastTask auth None (SqlInt t) None
  end.

(** [response.ok]. *)
Definition status_ok (status : Z) : bool :=
  (Z.leb 200 status && Z.leb status 299)%bool.

(** What a fetch of one of the two text routes settles to.  Of the body
    the client reads [content] only; a body without it gives
    [undefined]. *)
Definition text_response (r : reply) : response :=
  match r with
  | Reply status (JContent c) => Settled (status_ok status) (mkData c "" 0%Z [])
  | Reply status _ => Settled (status_ok status) (mkData None "" 0%Z [])
  | Uncaught => Rejected
  end.

(** What [loadTask] does with a task identifier that is a text.  (The
    page itself sets whole numbers only; a text is in [last_task] after a
    request made without the page.)  The earlier copy puts the identifier
    into a selector, and [querySelector] throws on a text that makes no
    selector; the browser resolves the path [/api/tasks/<text>/text],
    where dots, [?], [#] and [%] count, before the router sees it. *)
Inductive text_task : Type :=
| Aborts              (* [querySelector] throws: [loadTask] makes no request *)
| Reaches (taskId : task_key)   (* the route of the drafts *)
| ReachesProgress     (* [GET /api/user/progress] *)
| ReachesHealth       (* [GET /health]: an accepted body without [content] *)
| ReachesNoJson.      (* a file, the page, a refusal: nothing to read *)

(** What [loadTask(taskId)] does with an identifier as the progress route
    reported it: a whole number is written in decimal and reaches the
    route of the drafts with that number. *)
Definition loadTask_of (reading : string -> text_task) (v : sqlval)
  : text_task :=
  match v with
  | SqlInt z => Reaches (TaskInt z)
  | SqlText s => reading s
  | SqlNull => Reaches (TaskText "null")
  end.

(** What the login form ends in: the welcome screen with a message, or
    the course screen.  [stored] is the token [handleAuth] put into
    [localStorage], if it did; [draft] is the text [loadTaskText] put into
    the editor, if it did. *)
Inductive auth_view : Type :=
| WelcomeWithError (message : string) (stored : option bearer)
| Course (stored : bearer) (username : string) (lastTask : sqlval)
         (entries : list (task_key * Z)) (draft : option string).

(** When the requests of [handleAuth] reach the server. *)
Record auth_clock : Type := mkAuthClock {
  at_login : Z;
  at_register : Z;
  at_progress : Z;
  at_text : Z;
  at_last_task : Z
}.

(** The token of the login and that of the registration are both good for
    the requests that follow. *)
Definition token_lasts (clock : auth_clock) : Prop :=
  let latest := Z.max (at_progress clock)
                      (Z.max (at_text clock) (at_last_task clock)) in
  (latest < at_login clock + THIRTY_DAYS
   /\ latest < at_register clock + THIRTY_DAYS)%Z.

(** [data.content || ''] put into the editor when the answer is accepted. *)
Definition editor_after (r : reply) : option string :=
  match text_response r with
  | Settled true d => Some (content_or_empty d)
  | _ => None
  end.

(** [showCourseScreen()] as far as the server sees it: [loadTask] of the
    current task, that is [loadTaskText] and then [updateLastTask]. *)
Definition showCourseScreen (secret : string) (clock : auth_clock)
    (uuid : string) (reading : string -> text_task) (token : bearer)
    (name : string) (lastTask : sqlval) (entries : list (task_key * Z))
    (db : database) : auth_view * database :=
  let auth := authorization_of (Some token) in
  let get route :=
    handle secret
      (mkArrival (at_text clock) uuid (mkReq route auth None SqlNull None))
      db in
  let updateLastTask (loaded : option string * database) :=
    (Course token name lastTask entries (fst loaded),
     snd (handle secret
            (mkArrival (at_last_task clock) uuid
               (mkReq PostUserLastTask auth None lastTask None))
            (snd loaded))) in
  match loadTask_of reading lastTask with
  | Aborts => (Course token name lastTask entries None, db)
  | Reaches taskId =>
      let text := get (GetTaskText taskId) in
      updateLastTask (editor_after (fst text), snd text)
  | ReachesProgress =>
      let text := get GetUserProgress in
      updateLastTask (editor_after (fst text), snd text)
  | ReachesHealth => updateLastTask (Some "", db)
  | ReachesNoJson => updateLastTask (None, db)
  end.

(** [handleAuth(e)] run against the server, with no request of another
    client in between and no failure of the network: login, registration
    if the login is refused, [loadUserProgress], then [showCourseScreen].
    A body of a shape the route never sends is put with the failures of
    the network. *)
Definition handleAuth (secret : string) (clock : auth_clock)
    (uuid : string) (reading : string -> text_task) (typed : string)
    (db : database) : auth_view * database :=
  let username := trim typed in
  if String.length username <? 3
  then (WelcomeWithError "Benutzername muss mindestens 3 Zeichen lang sein."
          None, db)
  else
    let ask route := mkReq route None (Some username) SqlNull None in
    let first := handle secret
                   (mkArrival (at_login clock) uuid (ask PostAuthLogin))
                   db in
    let answer :=
      match fst first with
      | Reply status _ =>
          if status_ok status then first
          else handle secret
                 (mkArrival (at_register clock) uuid (ask PostAuthRegister))
                 (snd first)
      | Uncaught => first
      end in
    match fst answer with
    | Reply status (JAuth token _ _ _) =>
        if status_ok status
        then
          let refresh :=
            handle secret
              (mkArrival (at_progress clock) uuid
                 (request_of (Some token) FetchProgress)) (snd answer) in
          match fst refresh with
          | Reply status' (JProgress name lastTask entries) =>
              if status_ok status'
              then showCourseScreen secret clock uuid reading token name
                     lastTask entries (snd refresh)
              else (WelcomeWithError
                      "Verbindungsfehler. Bitte versuchen Sie es erneut."
                      (Some token), snd refresh)
          | _ => (WelcomeWithError
                    "Verbindungsfehler. Bitte versuchen Sie es erneut."
                    (Some token), snd refresh)
          end
        else (WelcomeWithError "Fehler bei der Anmeldung" None, snd answer)
    | Reply status (JError error) =>
        if status_ok status
        then (WelcomeWithError
                "Verbindungsfehler. Bitte versuchen Sie es erneut." None,
              snd answer)
        else (WelcomeWithError
                (if String.eqb error "" then "Fehler bei der Anmeldung"
                 else error) None, snd answer)
    | _ => (WelcomeWithError
              "Verbindungsfehler. Bitte versuchen Sie es erneut." None,
            snd answer)
    end.

(** The draft the text route sends for a task, as the editor shows it. *)
Definition first_draft (uid : string) (task : task_key) (db : database)
  : string :=
  match select_text uid task db with
  | Some r => match text_content r with Some c => c | None => "" end
  | None => ""
  end.

(** The routes that only read. *)
Definition reads_only (r : route) : bool :=
  match r with
  | PostAuthLogin | GetUserProgress | GetTaskText _ => true
  | _ => false
  end.

(** * Properties of the server *)

Local Open Scope Z_scope.

Section Keys.

Lemma task_key_eqb_eq (a b : task_key) : task_key_eqb a b = true <-> a = b.
Proof.
  destruct a as [x|x], b as [y|y]; simpl; split; intro H;
    try discriminate; try congruence.
  - apply Z.eqb_eq in H. now subst.
  - inversion H. apply Z.eqb_refl.
  - apply String.eqb_eq in H. now subst.
  - inversion H. apply String.eqb_refl.
Qed.

Lemma task_key_eqb_refl (a : task_key) : task_key_eqb a a = true.
Proof. now apply task_key_eqb_eq. Qed.

Lemma key_match_eq (u u' : string) (t t' : task_key) :
  (String.eqb u u' && task_key_eqb t t')%bool = true <-> u = u' /\ t = t'.
Proof.
  rewrite andb_true_iff, String.eqb_eq, task_key_eqb_eq. tauto.
Qed.

End Keys.

(** ** The middleware *)

Lemma verifyToken_pass secret now req next db t uid :
  bearer_token req = Some t ->
  jwt_verify t secret now = Some uid ->
  verifyToken secret now req next db = next uid db.
Proof.
  intros Ht Hv. unfold verifyToken. rewrite Ht.
  destruct t as [k u i|text]; simpl in *; [|discriminate].
  destruct (String.eqb k secret && Z.ltb now (i + THIRTY_DAYS))%bool;
    [|discriminate].
  now inversion Hv.
Qed.

Lemma verifyToken_cases secret now req next db :
  (exists msg, verifyToken secret now req next db
               = (Reply 401 (JError msg), db))
  \/ (exists t uid, bearer_token req = Some t
                    /\ jwt_verify t secret now = Some uid
                    /\ verifyToken secret now req next db = next uid db).
Proof.
  unfold verifyToken.
  destruct (bearer_token req) as [[k u i|text]|] eqn:Ht.
  - cbn [no_token].
    destruct (jwt_verify (Signed k u i) secret now) as [uid|] eqn:Hv.
    + right. exists (Signed k u i), uid. auto.
    + left. eauto.
  - cbn [no_token jwt_verify]. destruct (String.eqb text ""); left; eauto.
  - left. simpl. eauto.
Qed.

(** A token signed for [uid] with the server's key verifies to [uid]
    until it expires, and to nothing afterwards. *)
Lemma jwt_verify_sign uid secret iat now :
  jwt_verify (jwt_sign uid secret iat) secret now
  = if Z.ltb now (iat + THIRTY_DAYS) then Some uid else None.
Proof.
  unfold jwt_verify, jwt_sign. now rewrite String.eqb_refl.
Qed.

(** ** Effects of a request *)

Lemma verifyToken_effect secret now req next db :
  (forall uid, effect db (snd (next uid db))) ->
  effect db (snd (verifyToken secret now req next db)).
Proof.
  intro H.
  destruct (verifyToken_cases secret now req next db)
    as [[msg E]|(t & uid & _ & _ & E)]; rewrite E; simpl.
  - constructor.
  - apply H.
Qed.

Lemma handle_effect secret a db : effect db (snd (handle secret a db)).
Proof.
  unfold handle. destruct (req_route (arrival_request a)).
  - unfold post_auth_register.
    destruct (body_username _) as [name|]; [|constructor].
    destruct (_ || _)%bool; [constructor|].
    destruct (insert_user _ _ _ _) eqn:E; simpl; [|constructor].
    econstructor; eassumption.
  - unfold post_auth_login.
    destruct (match body_username _ with Some _ => _ | None => _ end);
      constructor.
  - apply verifyToken_effect. intro uid. unfold get_user_progress.
    destruct (select_user_by_id uid db); constructor.
  - apply verifyToken_effect. intro uid. simpl. constructor.
  - apply verifyToken_effect. intro uid. simpl. constructor.
  - apply verifyToken_effect. intro uid. simpl. constructor.
  - apply verifyToken_effect. intro uid. simpl. constructor.
Qed.

(** An invariant of every effect holds after every sequence of requests. *)
Lemma serve_invariant (P : database -> Prop) secret :
  (forall db db', effect db db' -> P db -> P db') ->
  forall arrivals db, P db -> P (serve secret arrivals db).
Proof.
  intros Hstep arrivals.
  induction arrivals as [|a rest IH]; intros db H; simpl; [exact H|].
  apply IH. eapply Hstep; [apply handle_effect | exact H].
Qed.

(** ** Drafts *)

Lemma find_append {A} (f : A -> bool) (l l' : list A) :
  find f (l ++ l')%list
  = match find f l with Some x => Some x | None => find f l' end.
Proof.
  induction l as [|x l IH]; simpl; [reflexivity|].
  destruct (f x); auto.
Qed.

Lemma texts_seq_ok_effect db db' :
  effect db db' -> texts_seq_ok db -> texts_seq_ok db'.
Proof.
  unfold texts_seq_ok.
  intros E H; destruct E as [|id name now db' E| | |]; simpl; auto.
  - unfold insert_user in E.
    destruct (existsb _ _); [discriminate|]. inversion E; subst. exact H.
  - apply Forall_app. split.
    + eapply Forall_impl; [|exact H]. simpl. intros; lia.
    + constructor; [simpl; lia | constructor].
Qed.

(** Rowids of [texts] never reach the next rowid: the row a save inserts
    has a rowid no stored row has. *)
Lemma texts_seq_ok_serve secret arrivals :
  texts_seq_ok (serve secret arrivals empty_db).
Proof.
  apply serve_invariant.
  - apply texts_seq_ok_effect.
  - constructor.
Qed.

(** Saving where there is no draft yet, then loading, gives the content
    back. *)
Lemma first_save_round_trip uid task c now req db :
  draft_rows uid task db = [] ->
  body_content req = c ->
  fst (get_task_text task uid
         (snd (post_task_text now task req uid db)))
  = Reply 200 (JContent c).
Proof.
  intros Hnone Hc. unfold get_task_text, post_task_text, select_text. simpl.
  rewrite find_append.
  unfold draft_rows in Hnone.
  set (key := fun r : text_row =>
    (String.eqb (text_user_id r) uid
     && task_key_eqb (text_task_id r) task)%bool) in *.
  destruct (find key (texts db)) as [r|] eqn:E.
  - apply find_some in E. destruct E as [Hin Hk].
    assert (In r (filter key (texts db))) by (apply filter_In; auto).
    rewrite Hnone in H. contradiction.
  - simpl. unfold key. simpl.
    rewrite String.eqb_refl, task_key_eqb_refl. simpl. now rewrite Hc.
Qed.

(** Once a draft row exists, a load keeps returning that row whatever is
    saved afterwards. *)
Lemma load_keeps_oldest uid task r uid' task' c now db :
  select_text uid task db = Some r ->
  select_text uid task (insert_or_replace_text uid' task' c now db) = Some r.
Proof.
  intros Hsel. unfold select_text. simpl.
  unfold select_text in Hsel. rewrite find_append, Hsel. reflexivity.
Qed.

(** C1, evaluated: alice registers, saves the draft a for task 1, saves the
    draft b for the same task and loads it.  The load answers a, the first
    content ever saved, where the round trip asks for b, the last one. *)
Theorem second_save_is_not_loaded :
  let secret := JWT_SECRET None in
  let db := serve secret
              [register_alice;
               alice_saves 1001 (TaskInt 1) "a";
               alice_saves 1002 (TaskInt 1) "b"] empty_db in
  fst (handle secret (alice_loads 1003 (TaskInt 1)) db)
  = Reply 200 (JContent (Some "a")).
Proof. vm_compute. reflexivity. Qed.

(** ** One row per key *)

Lemma progress_rows_effect db db' :
  effect db db' ->
  (forall uid task, (List.length (progress_rows uid task db) <= 1)%nat) ->
  forall uid task, (List.length (progress_rows uid task db') <= 1)%nat.
Proof.
  intros E H uid task; destruct E as [|id name now db' E| | |u0 t0 now];
    try apply H.
  - unfold insert_user in E.
    destruct (existsb _ _); [discriminate|]. inversion E; subst. apply H.
  - unfold progress_rows. simpl. rewrite filter_app, length_app. simpl.
    destruct (String.eqb u0 uid && task_key_eqb t0 task)%bool eqn:K.
    + apply key_match_eq in K. destruct K; subst.
      rewrite (proj2 (List.length_zero_iff_nil _)); [simpl; lia|].
      induction (progress db) as [|x l IH]; simpl; [easy|].
      destruct (String.eqb (progress_user_id x) uid
                && task_key_eqb (progress_task_id x) task)%bool eqn:Kx;
        simpl; [exact IH|]. rewrite Kx. exact IH.
    + simpl. rewrite Nat.add_0_r.
      specialize (H uid task). unfold progress_rows in H.
      eapply Nat.le_trans; [|exact H].
      clear H. induction (progress db) as [|x l IH]; simpl; [lia|].
      destruct (negb _); simpl;
        destruct (String.eqb (progress_user_id x) uid
                  && task_key_eqb (progress_task_id x) task)%bool;
        simpl; lia.
Qed.

(** The Progress half of the key invariant holds: after any sequence of
    requests a (learner, task) pair has at most one Progress row. *)
Lemma progress_key_unique secret arrivals uid task :
  (List.length (progress_rows uid task (serve secret arrivals empty_db))
   <= 1)%nat.
Proof.
  revert uid task. apply serve_invariant.
  - apply progress_rows_effect.
  - intros; simpl; lia.
Qed.

(** Each save adds a Draft row for its key, so the rows of a key count
    the saves. *)
Lemma draft_rows_grow uid task c now db :
  List.length (draft_rows uid task (insert_or_replace_text uid task c now db))
  = S (List.length (draft_rows uid task db)).
Proof.
  unfold draft_rows. simpl.
  rewrite filter_app, length_app. simpl.
  rewrite String.eqb_refl, task_key_eqb_refl. simpl. lia.
Qed.

(** C2, evaluated: after alice saved task 1 twice the [texts] table holds
    two Draft rows for the pair (alice, task 1), where the key invariant
    allows one. *)
Theorem two_saves_leave_two_draft_rows :
  let secret := JWT_SECRET None in
  let db := serve secret
              [register_alice;
               alice_saves 1001 (TaskInt 1) "a";
               alice_saves 1002 (TaskInt 1) "b"] empty_db in
  List.length (draft_rows "uuid-alice" (TaskInt 1) db) = 2%nat.
Proof. vm_compute. reflexivity. Qed.

(** ** Isolation between learners *)

Lemma verifyToken_signed secret now req next db uid iat :
  bearer_token req = Some (jwt_sign uid secret iat) ->
  verifyToken secret now req next db
  = if Z.ltb now (iat + THIRTY_DAYS) then next uid db
    else (Reply 401 (JError "Invalid token"), db).
Proof.
  intro Ht. unfold verifyToken. rewrite Ht. unfold jwt_sign.
  cbn [no_token jwt_verify]. rewrite String.eqb_refl. simpl.
  now destruct (Z.ltb now (iat + THIRTY_DAYS)).
Qed.

Lemma find_filter_and {A} (p q : A -> bool) (l : list A) :
  find (fun x => p x && q x)%bool l = find q (filter p l).
Proof.
  induction l as [|x l IH]; simpl; [reflexivity|].
  destruct (p x); simpl; [destruct (q x)|]; auto.
Qed.

Lemma find_filter_same {A} (p : A -> bool) (l : list A) :
  find p l = find p (filter p l).
Proof.
  induction l as [|x l IH]; simpl; [reflexivity|].
  destruct (p x) eqn:E; simpl; [now rewrite E | exact IH].
Qed.

Lemma filter_other_user_update v A B (l : list user_row) :
  A <> B ->
  filter (fun u => String.eqb (user_id u) B)
    (map (fun u => if String.eqb (user_id u) A
                   then mkUser (user_id u) (user_username u)
                               (user_created_at u) v
                   else u) l)
  = filter (fun u => String.eqb (user_id u) B) l.
Proof.
  intro Hne. induction l as [|x l IH]; simpl; [reflexivity|].
  destruct (String.eqb (user_id x) A) eqn:EA; simpl.
  - apply String.eqb_eq in EA.
    replace (String.eqb (user_id x) B) with false; [exact IH|].
    symmetry. apply String.eqb_neq. congruence.
  - now rewrite IH.
Qed.

Lemma filter_other_user_progress A B task (l : list progress_row) :
  A <> B ->
  filter (fun r => String.eqb (progress_user_id r) B)
    (filter (fun r => negb (String.eqb (progress_user_id r) A
                            && task_key_eqb (progress_task_id r) task)) l)
  = filter (fun r => String.eqb (progress_user_id r) B) l.
Proof.
  intro Hne. induction l as [|x l IH]; simpl; [reflexivity|].
  destruct (String.eqb (progress_user_id x) B) eqn:EB.
  - replace (String.eqb (progress_user_id x) A) with false.
    + simpl. rewrite EB. now rewrite IH.
    + symmetry. apply String.eqb_neq. apply String.eqb_eq in EB. congruence.
  - destruct (negb _); simpl; [rewrite EB|]; exact IH.
Qed.

(** The route bodies leave the rows of every other learner alone. *)
Lemma rows_of_other a A B db :
  A <> B ->
  let req := arrival_request a in
  let now := arrival_now a in
  rows_of B (snd (get_user_progress A db)) = rows_of B db
  /\ rows_of B (snd (post_user_last_task req A db)) = rows_of B db
  /\ (forall t, rows_of B (snd (post_task_text now t req A db)) = rows_of B db)
  /\ (forall t, rows_of B (snd (get_task_text t A db)) = rows_of B db)
  /\ (forall t, rows_of B (snd (post_task_complete now t A db))
                = rows_of B db).
Proof.
  intros Hne req now.
  assert (EAB : String.eqb A B = false) by now apply String.eqb_neq.
  repeat split.
  - unfold get_user_progress. now destruct (select_user_by_id A db).
  - unfold rows_of. simpl. now rewrite filter_other_user_update.
  - intro t. unfold rows_of. simpl. rewrite filter_app. simpl.
    rewrite EAB. now rewrite app_nil_r.
  - intro t. unfold rows_of. simpl. rewrite filter_app. simpl.
    rewrite EAB, app_nil_r. now rewrite filter_other_user_progress.
Qed.

(** The replies of the route bodies are computed from the caller's own
    rows. *)
Lemma reply_from_own_rows a A db db2 :
  rows_of A db2 = rows_of A db ->
  let req := arrival_request a in
  let now := arrival_now a in
  fst (get_user_progress A db2) = fst (get_user_progress A db)
  /\ fst (post_user_last_task req A db2) = fst (post_user_last_task req A db)
  /\ (forall t, fst (post_task_text now t req A db2)
                = fst (post_task_text now t req A db))
  /\ (forall t, fst (get_task_text t A db2) = fst (get_task_text t A db))
  /\ (forall t, fst (post_task_complete now t A db2)
                = fst (post_task_complete now t A db)).
Proof.
  intros H req now. unfold rows_of in H.
  injection H as Hu Ht Hp.
  repeat split; auto.
  - unfold get_user_progress, select_user_by_id, select_progress.
    rewrite (find_filter_same _ (users db2)), (find_filter_same _ (users db)).
    rewrite Hu, Hp.
    now destruct (find _ (filter _ (users db))).
  - intro t. unfold get_task_text, select_text. simpl.
    rewrite (find_filter_and (fun r => String.eqb (text_user_id r) A)
               (fun r => task_key_eqb (text_task_id r) t) (texts db2)).
    rewrite (find_filter_and (fun r => String.eqb (text_user_id r) A)
               (fun r => task_key_eqb (text_task_id r) t) (texts db)).
    now rewrite Ht.
Qed.

Lemma verifyToken_acts_for secret a next db :
  verifyToken secret (arrival_now a) (arrival_request a) next db
  = match acts_for secret a with
    | Some uid => next uid db
    | None =>
        (Reply 401
           (JError (if no_token (bearer_token (arrival_request a))
                    then "No token provided" else "Invalid token")), db)
    end.
Proof.
  unfold verifyToken, acts_for.
  destruct (bearer_token (arrival_request a)) as [[k u i|text]|];
    cbn [no_token]; try reflexivity.
  now destruct (String.eqb text "").
Qed.

Lemma acts_for_signed secret a A iat :
  bearer_token (arrival_request a) = Some (jwt_sign A secret iat) ->
  acts_for secret a = Some A \/ acts_for secret a = None.
Proof.
  intro H. unfold acts_for. rewrite H. unfold jwt_sign.
  cbn [no_token jwt_verify]. rewrite String.eqb_refl. simpl.
  destruct (Z.ltb (arrival_now a) (iat + THIRTY_DAYS)); auto.
Qed.

Lemma view_of_rows A d1 d2 :
  rows_of A d1 = rows_of A d2 -> view_of A d1 = view_of A d2.
Proof. unfold view_of. now intros ->. Qed.

Lemma filter_map_same {X} (p : X -> bool) (f : X -> X) (l : list X) :
  (forall x, p (f x) = p x) -> filter p (map f l) = map f (filter p l).
Proof.
  intro H. induction l as [|x l IH]; simpl; [reflexivity|].
  rewrite H. destruct (p x); simpl; now rewrite IH.
Qed.

Lemma filter_swap {X} (p q : X -> bool) (l : list X) :
  filter p (filter q l) = filter q (filter p l).
Proof.
  induction l as [|x l IH]; simpl; [reflexivity|].
  destruct (q x) eqn:Q, (p x) eqn:P; simpl; rewrite ?Q, ?P, IH; reflexivity.
Qed.

(** What a route body leaves of a learner's rows is computed from what it
    found of them, whoever the body acts for. *)
Lemma view_after_body a A uid db db2 :
  view_of A db2 = view_of A db ->
  let req := arrival_request a in
  let now := arrival_now a in
  view_of A (snd (get_user_progress uid db2))
  = view_of A (snd (get_user_progress uid db))
  /\ view_of A (snd (post_user_last_task req uid db2))
     = view_of A (snd (post_user_last_task req uid db))
  /\ (forall t, view_of A (snd (post_task_text now t req uid db2))
                = view_of A (snd (post_task_text now t req uid db)))
  /\ (forall t, view_of A (snd (get_task_text t uid db2))
                = view_of A (snd (get_task_text t uid db)))
  /\ (forall t, view_of A (snd (post_task_complete now t uid db2))
                = view_of A (snd (post_task_complete now t uid db))).
Proof.
  intros H req now. split; [|split; [|split; [|split]]].
  - unfold get_user_progress.
    now destruct (select_user_by_id uid db2), (select_user_by_id uid db).
  - unfold view_of, rows_of in *. injection H as Hu Ht Hp. simpl.
    rewrite !filter_map_same, Hu, Ht, Hp; [reflexivity| |];
      intro x; now destruct (String.eqb (user_id x) uid).
  - intro t. unfold view_of, rows_of in *. injection H as Hu Ht Hp. simpl.
    rewrite !filter_app, !map_app, Hu, Ht, Hp. simpl.
    now destruct (String.eqb uid A).
  - intro t. exact H.
  - intro t. unfold view_of, rows_of in *. injection H as Hu Ht Hp. simpl.
    rewrite !filter_app.
    rewrite (filter_swap _ _ (progress db2)), (filter_swap _ _ (progress db)).
    now rewrite Hu, Ht, Hp.
Qed.

Lemma content_of_fields t (l : list text_row) :
  option_map text_content
    (find (fun r => task_key_eqb (text_task_id r) t) l)
  = option_map (fun f => snd (fst f))
      (find (fun f => task_key_eqb (fst (fst f)) t) (map draft_fields l)).
Proof.
  induction l as [|x l IH]; simpl; [reflexivity|].
  destruct (task_key_eqb (text_task_id x) t); [reflexivity | exact IH].
Qed.

(** The reply of a route body is computed from what it finds of the rows
    of the learner it acts for. *)
Lemma reply_from_own_view a A db db2 :
  view_of A db2 = view_of A db ->
  let req := arrival_request a in
  let now := arrival_now a in
  fst (get_user_progress A db2) = fst (get_user_progress A db)
  /\ fst (post_user_last_task req A db2) = fst (post_user_last_task req A db)
  /\ (forall t, fst (post_task_text now t req A db2)
                = fst (post_task_text now t req A db))
  /\ (forall t, fst (get_task_text t A db2) = fst (get_task_text t A db))
  /\ (forall t, fst (post_task_complete now t A db2)
                = fst (post_task_complete now t A db)).
Proof.
  intros H req now. unfold view_of, rows_of in H.
  injection H as Hu Ht Hp.
  repeat split; auto.
  - unfold get_user_progress, select_user_by_id, select_progress.
    rewrite (find_filter_same _ (users db2)), (find_filter_same _ (users db)).
    rewrite Hu, Hp.
    now destruct (find _ (filter _ (users db))).
  - intro t. unfold get_task_text, select_text. simpl.
    rewrite (find_filter_and (fun r => String.eqb (text_user_id r) A)
               (fun r => task_key_eqb (text_task_id r) t) (texts db2)).
    rewrite (find_filter_and (fun r => String.eqb (text_user_id r) A)
               (fun r => task_key_eqb (text_task_id r) t) (texts db)).
    pose proof (content_of_fields t
                  (filter (fun r => String.eqb (text_user_id r) A)
                          (texts db2))) as C2.
    pose proof (content_of_fields t
                  (filter (fun r => String.eqb (text_user_id r) A)
                          (texts db))) as C1.
    rewrite Ht, <- C1 in C2.
    destruct (find _ (filter _ (texts db2))), (find _ (filter _ (texts db)));
      simpl in C2; congruence.
Qed.

(** A protected request that does not act for a learner leaves what the
    tables hold of that learner. *)
Lemma view_kept_by_others secret a A db :
  protected (req_route (arrival_request a)) = true ->
  acts_for secret a <> Some A ->
  view_of A (snd (handle secret a db)) = view_of A db.
Proof.
  intros Hp Hother. unfold handle.
  destruct (req_route (arrival_request a)); try discriminate;
    rewrite verifyToken_acts_for;
    (destruct (acts_for secret a) as [uid|]; [|reflexivity]);
    assert (Hne : uid <> A) by congruence;
    destruct (rows_of_other a uid A db Hne) as (W1 & W2 & W3 & W4 & W5);
    apply view_of_rows; auto.
Qed.

(** What a protected request leaves of a learner's rows is computed from
    what it found of them. *)
Lemma view_after_request secret a A db db2 :
  protected (req_route (arrival_request a)) = true ->
  view_of A db2 = view_of A db ->
  view_of A (snd (handle secret a db2)) = view_of A (snd (handle secret a db)).
Proof.
  intros Hp H. unfold handle.
  destruct (req_route (arrival_request a)); try discriminate;
    rewrite !verifyToken_acts_for;
    (destruct (acts_for secret a) as [uid|]; [|exact H]);
    destruct (view_after_body a A uid db db2 H) as (V1 & V2 & V3 & V4 & V5);
    auto.
Qed.

Lemma view_after_requests secret l A db db2 :
  Forall (fun x => protected (req_route (arrival_request x)) = true) l ->
  view_of A db2 = view_of A db ->
  view_of A (serve secret l db2) = view_of A (serve secret l db).
Proof.
  intro Hl. revert db db2.
  induction Hl as [|x l Hx Hl IH]; intros db db2 H; simpl; [exact H|].
  apply IH. now apply view_after_request.
Qed.

(** Leaving out the requests that act for others changes nothing of what
    the tables hold of a learner. *)
Lemma view_without_others secret l A db :
  Forall (fun x => protected (req_route (arrival_request x)) = true) l ->
  view_of A (serve secret l db)
  = view_of A
      (serve secret
         (filter (fun x => match acts_for secret x with
                           | Some uid => String.eqb uid A
                           | None => false
                           end) l) db).
Proof.
  intro Hl. revert db.
  induction Hl as [|x l Hx Hl IH]; intro db; simpl; [reflexivity|].
  destruct (acts_for secret x) as [uid|] eqn:E;
    [destruct (String.eqb uid A) eqn:U|].
  - simpl. apply IH.
  - rewrite IH. apply view_after_requests.
    + apply Forall_forall. intros y Hy. apply filter_In in Hy.
      rewrite Forall_forall in Hl. apply Hl. tauto.
    + apply view_kept_by_others; [exact Hx|]. rewrite E.
      intro C. inversion C; subst. rewrite String.eqb_refl in U.
      discriminate.
  - rewrite IH. apply view_after_requests.
    + apply Forall_forall. intros y Hy. apply filter_In in Hy.
      rewrite Forall_forall in Hl. apply Hl. tauto.
    + apply view_kept_by_others; [exact Hx|]. rewrite E. discriminate.
Qed.

Lemma reply_from_view secret a A iat db db2 :
  protected (req_route (arrival_request a)) = true ->
  bearer_token (arrival_request a) = Some (jwt_sign A secret iat) ->
  view_of A db2 = view_of A db ->
  fst (handle secret a db2) = fst (handle secret a db).
Proof.
  intros Hp Htok H.
  destruct (reply_from_own_view a A db db2 H) as (R1 & R2 & R3 & R4 & R5).
  unfold handle.
  destruct (req_route (arrival_request a)); try discriminate;
    rewrite !verifyToken_acts_for;
    (destruct (acts_for_signed secret a A iat Htok) as [E|E]; rewrite E);
    auto.
Qed.

(** C4: a request to a protected route that carries a credential minted
    for learner A, for any learner A, any other learner B and any task
    id.  It writes nothing of B: every row of B (drafts, progress and the
    learner row itself) is as it was.  It reads nothing of B: its reply,
    and what it leaves of A's own rows, are the same in any two databases
    that hold the same of A, whatever they hold of B.  This lasts beyond
    one request: after any sequence of protected requests by anyone, on
    databases that held the same of A, the reply is the same; and it is
    the reply that would be given had nobody but A made any of those
    requests.  The learner a route acts for is the one the verified
    credential names, never one the caller supplies. *)
Theorem cross_learner_isolation secret a db A B iat :
  protected (req_route (arrival_request a)) = true ->
  bearer_token (arrival_request a) = Some (jwt_sign A secret iat) ->
  A <> B ->
  rows_of B (snd (handle secret a db)) = rows_of B db
  /\ (forall db2, rows_of A db2 = rows_of A db ->
        fst (handle secret a db2) = fst (handle secret a db))
  /\ (forall db2, view_of A db2 = view_of A db ->
        fst (handle secret a db2) = fst (handle secret a db)
        /\ view_of A (snd (handle secret a db2))
           = view_of A (snd (handle secret a db)))
  /\ (forall before db2,
        Forall (fun x => protected (req_route (arrival_request x)) = true)
               before ->
        view_of A db2 = view_of A db ->
        fst (handle secret a (serve secret before db2))
        = fst (handle secret a (serve secret before db)))
  /\ (forall before,
        Forall (fun x => protected (req_route (arrival_request x)) = true)
               before ->
        fst (handle secret a (serve secret before db))
        = fst (handle secret a
                 (serve secret
                    (filter (fun x => match acts_for secret x with
                                      | Some uid => String.eqb uid A
                                      | None => false
                                      end) before) db))).
Proof.
  intros Hprot Htok Hne.
  destruct (rows_of_other a A B db Hne) as (W1 & W2 & W3 & W4 & W5).
  split; [|split; [|split; [|split]]].
  - unfold handle.
    destruct (req_route (arrival_request a)); try discriminate;
      rewrite (verifyToken_signed _ _ _ _ _ _ _ Htok);
      destruct (Z.ltb (arrival_now a) (iat + THIRTY_DAYS)); auto.
  - intros db2 Hsame.
    apply (reply_from_view secret a A iat db db2 Hprot Htok).
    now apply view_of_rows.
  - intros db2 Hsame. split.
    + now apply (reply_from_view secret a A iat).
    + now apply view_after_request.
  - intros before db2 Hb Hsame.
    apply (reply_from_view secret a A iat _ _ Hprot Htok).
    now apply view_after_requests.
  - intros before Hb.
    apply (reply_from_view secret a A iat _ _ Hprot Htok).
    now apply view_without_others.
Qed.

(** ** The last-task pointer *)

Lemma handle_users secret a db :
  let db' := snd (handle secret a db) in
  users db' = users db
  \/ (exists id name now,
        users db' = (users db ++ [mkUser id name now (SqlInt 1)])%list)
  \/ (req_route (arrival_request a) = PostUserLastTask
      /\ exists uid,
           db' = update_last_task (body_taskId (arrival_request a)) uid db).
Proof.
  unfold handle. destruct (req_route (arrival_request a)) eqn:R.
  - unfold post_auth_register.
    destruct (body_username _) as [name|]; [|now left].
    destruct (_ || _)%bool; [now left|].
    unfold insert_user. destruct (existsb _ _); [now left|].
    right; left. simpl. eauto.
  - unfold post_auth_login.
    destruct (match body_username _ with Some _ => _ | None => _ end);
      now left.
  - destruct (verifyToken_cases secret (arrival_now a) (arrival_request a)
                get_user_progress db) as [[m E]|(t & uid & _ & _ & E)];
      rewrite E; [now left|].
    unfold get_user_progress. destruct (select_user_by_id uid db); now left.
  - destruct (verifyToken_cases secret (arrival_now a) (arrival_request a)
                (post_user_last_task (arrival_request a)) db)
      as [[m E]|(t & uid & _ & _ & E)]; rewrite E; [now left|].
    right; right. split; [reflexivity|]. now exists uid.
  - destruct (verifyToken_cases secret (arrival_now a) (arrival_request a)
                (post_task_text (arrival_now a) taskId (arrival_request a))
                db) as [[m E]|(t & uid & _ & _ & E)]; rewrite E; now left.
  - destruct (verifyToken_cases secret (arrival_now a) (arrival_request a)
                (get_task_text taskId) db)
      as [[m E]|(t & uid & _ & _ & E)]; rewrite E; now left.
  - destruct (verifyToken_cases secret (arrival_now a) (arrival_request a)
                (post_task_complete (arrival_now a) taskId) db)
      as [[m E]|(t & uid & _ & _ & E)]; rewrite E; now left.
Qed.

Lemma update_keeps_last_tasks_valid N v uid db :
  valid_task_id N v = true ->
  last_tasks_valid N db = true ->
  last_tasks_valid N (update_last_task v uid db) = true.
Proof.
  intros Hv. unfold last_tasks_valid. simpl.
  induction (users db) as [|x l IH]; simpl; [reflexivity|].
  rewrite !andb_true_iff. intros [Hx Hl]. split; [|auto].
  destruct (String.eqb (user_id x) uid); simpl; assumption.
Qed.

(** C5, as stated, fails: alice registers and sets her last task to 20;
    the pointer stored for her is 20, outside the range 1..19. *)
Lemma last_task_leaves_the_range :
  last_tasks_valid 19
    (serve (JWT_SECRET None)
       [register_alice; alice_sets_last_task 1001 (SqlInt 20)] empty_db)
  = false.
Proof. vm_compute. reflexivity. Qed.

(** C5, amended: a learner is created with last task 1, and the route
    stores the supplied value as it comes; so in every state reached by
    requests whose last-task values all lie in 1..N, every learner's last
    task lies in 1..N. *)
Theorem last_task_in_range_when_supplied_in_range secret N arrivals :
  1 <= N ->
  (forall a, In a arrivals ->
     req_route (arrival_request a) = PostUserLastTask ->
     valid_task_id N (body_taskId (arrival_request a)) = true) ->
  last_tasks_valid N (serve secret arrivals empty_db) = true.
Proof.
  intros HN.
  assert (G : forall db, last_tasks_valid N db = true ->
            (forall a, In a arrivals ->
               req_route (arrival_request a) = PostUserLastTask ->
               valid_task_id N (body_taskId (arrival_request a)) = true) ->
            last_tasks_valid N (serve secret arrivals db) = true).
  { induction arrivals as [|a rest IH]; intros db Hdb Hall; simpl;
      [exact Hdb|].
    apply IH; [|intros; apply Hall; simpl; auto].
    pose proof (handle_users secret a db) as HU. cbv zeta in HU.
    destruct HU as [E|[(id & name & now & E)|(R & uid & E)]].
    - unfold last_tasks_valid. rewrite E. exact Hdb.
    - unfold last_tasks_valid. rewrite E, forallb_app.
      fold (last_tasks_valid N db). rewrite Hdb. simpl.
      rewrite andb_true_r. apply Z.leb_le. lia.
    - rewrite E. apply update_keeps_last_tasks_valid; [|exact Hdb].
      apply Hall; simpl; auto. }
  intro Hall. apply G; [reflexivity | exact Hall].
Qed.

(** ** Completion *)

Lemma completed_in_effect uid task db db' :
  effect db db' ->
  completed_in uid task db = true -> completed_in uid task db' = true.
Proof.
  intros E H; destruct E as [|id name now db' E| | |u0 t0 now]; auto.
  - unfold insert_user in E.
    destruct (existsb _ _); [discriminate|]. inversion E; subst. exact H.
  - unfold completed_in in *. simpl. rewrite existsb_app.
    apply orb_true_iff.
    destruct (String.eqb u0 uid && task_key_eqb t0 task)%bool eqn:K.
    + right. simpl. rewrite K. reflexivity.
    + left. apply existsb_exists in H. destruct H as (r & Hin & Hr).
      apply existsb_exists. exists r. split; [|exact Hr].
      apply filter_In. split; [exact Hin|].
      apply andb_true_iff in Hr. destruct Hr as [Hk _].
      apply key_match_eq in Hk. destruct Hk as [Hu Ht].
      rewrite Hu, Ht. apply negb_true_iff.
      destruct (String.eqb uid u0 && task_key_eqb task t0)%bool eqn:K';
        [|reflexivity].
      apply key_match_eq in K'. destruct K'; subst.
      rewrite String.eqb_refl, task_key_eqb_refl in K. discriminate.
Qed.

Lemma completed_after_complete uid task now db :
  completed_in uid task (insert_or_replace_progress uid task now db) = true.
Proof.
  unfold completed_in. simpl. rewrite existsb_app. apply orb_true_iff.
  right. simpl. now rewrite String.eqb_refl, task_key_eqb_refl.
Qed.

Lemma In_insert_by_task x r l :
  In x (insert_by_task r l) <-> x = r \/ In x l.
Proof.
  induction l as [|y l IH]; simpl.
  - intuition.
  - destruct (task_key_leb (progress_task_id r) (progress_task_id y));
      simpl; rewrite ?IH; intuition.
Qed.

(** The index lists the rows of the table, each as often as it is there. *)
Lemma In_index_order x l : In x (index_order l) <-> In x l.
Proof.
  induction l as [|y l IH]; simpl; [tauto|].
  rewrite In_insert_by_task, IH. intuition.
Qed.

(** After a completion the learner's entries hold the task, and hold it
    as completed only. *)
Lemma entries_after_complete uid task now db :
  let entries := select_progress uid
                   (insert_or_replace_progress uid task now db) in
  In (task, SQL_TRUE) entries
  /\ forall c, In (task, c) entries -> c = SQL_TRUE.
Proof.
  unfold select_progress. cbn [progress insert_or_replace_progress]. split.
  - apply in_map_iff. exists (mkProgress uid task SQL_TRUE now).
    split; [reflexivity|]. apply In_index_order, filter_In. split.
    + apply in_or_app. right. now left.
    + simpl. apply String.eqb_refl.
  - intros c Hc. apply in_map_iff in Hc. destruct Hc as (r & Hr & Hin).
    apply In_index_order, filter_In in Hin. destruct Hin as [Hin Hu].
    apply in_app_or in Hin. destruct Hin as [Hin|[Hin|[]]].
    + apply filter_In in Hin. destruct Hin as [_ Hk].
      inversion Hr; subst. rewrite Hu, task_key_eqb_refl in Hk.
      discriminate.
    + subst r. now inversion Hr.
Qed.

(** C6: completing a task sets its completed flag; completing it again
    leaves the flag set; after either call the progress route answers with
    an entry for the task that is completed, and with no entry for it that
    is not; and no request of any kind resets a flag that is set.
    ([completed] is SQLite's TRUE, the integer 1.) *)
Theorem completion_is_one_way secret uid user task now now' db arrivals :
  select_user_by_id uid db = Some user ->
  let db1 := snd (post_task_complete now task uid db) in
  let db2 := snd (post_task_complete now' task uid db1) in
  completed_in uid task db1 = true
  /\ completed_in uid task db2 = true
  /\ (forall d, d = db1 \/ d = db2 ->
        exists entries,
          fst (get_user_progress uid d)
          = Reply 200 (JProgress (user_username user)
                         (js_or (user_last_task user) (SqlInt 1)) entries)
          /\ In (task, SQL_TRUE) entries
          /\ forall c, In (task, c) entries -> c = SQL_TRUE)
  /\ (forall d, completed_in uid task d = true ->
        completed_in uid task (serve secret arrivals d) = true).
Proof.
  intros Hu db1 db2. split; [apply completed_after_complete|].
  split; [apply completed_after_complete|]. split.
  - intros d Hd.
    exists (select_progress uid d). split.
    + unfold get_user_progress.
      assert (E : select_user_by_id uid d = Some user)
        by (destruct Hd; subst d; exact Hu).
      now rewrite E.
    + destruct Hd; subst d; apply entries_after_complete.
  - intros d Hd.
    apply (serve_invariant (fun x => completed_in uid task x = true));
      [|exact Hd].
    intros x y E. now apply completed_in_effect.
Qed.

(** ** Registration *)

Lemma insert_user_fresh id name now db :
  select_user_by_username name db = None ->
  select_user_by_id id db = None ->
  insert_user id name now db
  = Some (mkDb (users db ++ [mkUser id name now (SqlInt 1)])
               (texts db) (texts_seq db) (progress db)).
Proof.
  unfold select_user_by_username, select_user_by_id, insert_user.
  intros Hn Hi.
  replace (existsb _ (users db)) with false; [reflexivity|].
  symmetry. induction (users db) as [|x l IH]; simpl in *; [reflexivity|].
  destruct (String.eqb (user_username x) name); [discriminate|].
  destruct (String.eqb (user_id x) id); [discriminate|].
  simpl. auto.
Qed.

Lemma insert_user_taken id name now db :
  select_user_by_username name db <> None ->
  insert_user id name now db = None.
Proof.
  unfold select_user_by_username, insert_user. intro Hn.
  replace (existsb _ (users db)) with true; [reflexivity|].
  symmetry. induction (users db) as [|x l IH]; simpl in *; [congruence|].
  destruct (String.eqb (user_username x) name).
  - now rewrite orb_true_r.
  - rewrite orb_false_r.
    destruct (String.eqb (user_id x) id); simpl; auto.
Qed.

(** C7: registering the username [name].  Shorter than 3 characters: the
    reply is 400 and nothing changes.  Otherwise, a learner of that name
    exists: the reply is 409 and nothing changes.  Otherwise (the
    generated identifier being new, as [uuidv4] promises): a learner row
    with last task 1 is added, and the reply carries a token signed now
    for the new identifier, valid from now on for thirty days, with the
    username, the identifier and last task 1. *)
Theorem register_outcomes secret now uuid route auth task c name db :
  let req := mkReq route auth (Some name) task c in
  let out := post_auth_register secret now uuid req db in
  ((String.length name < 3)%nat ->
     out = (Reply 400 (JError "Username must be at least 3 characters"), db))
  /\ ((3 <= String.length name)%nat ->
      select_user_by_username name db <> None ->
      out = (Reply 409 (JError "Username already exists"), db))
  /\ ((3 <= String.length name)%nat ->
      select_user_by_username name db = None ->
      select_user_by_id uuid db = None ->
      let token := jwt_sign uuid secret now in
      let learner := mkUser uuid name now (SqlInt 1) in
      out = (Reply 200 (JAuth token name uuid (SqlInt 1)),
             mkDb (users db ++ [learner])
                  (texts db) (texts_seq db) (progress db))
      /\ select_user_by_username name (snd out) = Some learner
      /\ (forall later, now <= later < now + THIRTY_DAYS ->
            jwt_verify token secret later = Some uuid)).
Proof.
  intros req out. unfold out, post_auth_register. simpl.
  assert (Hlen : forall n, (3 <= String.length n)%nat ->
            (String.eqb n "" || Nat.ltb (String.length n) 3)%bool = false).
  { intros n Hn. apply orb_false_iff. split.
    - apply String.eqb_neq. intro; subst. simpl in Hn. lia.
    - apply Nat.ltb_ge. exact Hn. }
  split; [|split].
  - intro Hshort.
    replace (Nat.ltb (String.length name) 3) with true
      by (symmetry; now apply Nat.ltb_lt).
    now rewrite orb_true_r.
  - intros Hlong Htaken. rewrite (Hlen _ Hlong).
    now rewrite insert_user_taken.
  - intros Hlong Hfree Hnew. rewrite (Hlen _ Hlong).
    rewrite (insert_user_fresh _ _ _ _ Hfree Hnew). simpl.
    split; [reflexivity|]. split.
    + unfold select_user_by_username in *. simpl.
      rewrite find_append, Hfree. simpl. now rewrite String.eqb_refl.
    + intros later Hl.
      change (jwt_verify (jwt_sign uuid secret now) secret later = Some uuid).
      rewrite jwt_verify_sign.
      replace (Z.ltb later (now + THIRTY_DAYS)) with true; [reflexivity|].
      symmetry. apply Z.ltb_lt. lia.
Qed.

(** ** No validation of task identifiers *)

Lemma update_last_task_unknown v uid db :
  select_user_by_id uid db = None -> update_last_task v uid db = db.
Proof.
  unfold select_user_by_id, update_last_task. intro H.
  destruct db as [us ts sq ps]. simpl in *. f_equal.
  induction us as [|x l IH]; simpl in *; [reflexivity|].
  destruct (String.eqb (user_id x) uid); [discriminate|].
  now rewrite IH.
Qed.

(** C10: for a request with a valid credential, whatever the task
    identifier (an integer inside or outside 1..N, or a text that is no
    number): saving a draft answers success and leaves a Draft row for
    that identifier with the content sent; completing answers success and
    leaves a completed Progress row for that identifier; and setting the
    last task answers success even when the credential's learner has no
    row, in which case the database is unchanged. *)
Theorem no_validation_of_identifiers secret a db t uid :
  bearer_token (arrival_request a) = Some t ->
  jwt_verify t secret (arrival_now a) = Some uid ->
  let req := arrival_request a in
  let out := handle secret a db in
  (forall task, req_route req = PostTaskText task ->
     fst out = Reply 200 JSuccess
     /\ In (mkText (texts_seq db + 1) uid task (body_content req)
                   (arrival_now a)) (draft_rows uid task (snd out)))
  /\ (forall task, req_route req = PostTaskComplete task ->
        fst out = Reply 200 JSuccess
        /\ In (mkProgress uid task SQL_TRUE (arrival_now a))
              (progress_rows uid task (snd out)))
  /\ (req_route req = PostUserLastTask ->
        fst out = Reply 200 JSuccess
        /\ (select_user_by_id uid db = None -> snd out = db)).
Proof.
  intros Ht Hv req out. unfold out, handle. fold req.
  split; [|split].
  - intros task R. rewrite R.
    rewrite (verifyToken_pass _ _ _ _ _ _ _ Ht Hv). simpl.
    split; [reflexivity|].
    unfold draft_rows. simpl. apply filter_In. split.
    + apply in_or_app. right. now left.
    + simpl. now rewrite String.eqb_refl, task_key_eqb_refl.
  - intros task R. rewrite R.
    rewrite (verifyToken_pass _ _ _ _ _ _ _ Ht Hv). simpl.
    split; [reflexivity|].
    unfold progress_rows. simpl. apply filter_In. split.
    + apply in_or_app. right. now left.
    + simpl. now rewrite String.eqb_refl, task_key_eqb_refl.
  - intros R. rewrite R.
    rewrite (verifyToken_pass _ _ _ _ _ _ _ Ht Hv). simpl.
    split; [reflexivity|].
    intro Hnone. now apply update_last_task_unknown.
Qed.

(** ** The identity a protected route acts for *)

(** A protected route reads the token, the task identifier, the content
    and the clock: the username field of the body and the generated
    identifier play no part in the outcome. *)
Lemma protected_routes_ignore_claimed_identity secret now r auth t c db
    name name' uuid uuid' :
  protected r = true ->
  handle secret (mkArrival now uuid (mkReq r auth name t c)) db
  = handle secret (mkArrival now uuid' (mkReq r auth name' t c)) db.
Proof.
  intro H. destruct r; try discriminate; reflexivity.
Qed.

(** The end-to-end run: alice registers, saves Hello for task 1 and
    completes task 1; her progress shows last task 1 and task 1
    completed. *)
Lemma end_to_end_alice :
  let secret := JWT_SECRET None in
  let db := serve secret
              [register_alice;
               alice_saves 1001 (TaskInt 1) "Hello";
               alice_completes 1002 (TaskInt 1)] empty_db in
  fst (handle secret (alice_gets_progress 1003) db)
  = Reply 200 (JProgress "alice" (SqlInt 1) [(TaskInt 1, SQL_TRUE)]).
Proof. vm_compute. reflexivity. Qed.

(** * Properties of the client *)

Local Open Scope nat_scope.

Section Timers.

Lemma filter_twice {A} (p q : A -> bool) (l : list A) :
  filter q (filter p l) = filter (fun x => p x && q x)%bool l.
Proof.
  induction l as [|x l IH]; simpl; [reflexivity|].
  destruct (p x); simpl; [destruct (q x)|]; now rewrite ?IH.
Qed.

Lemma fire_due_app limit ts ts' a :
  fire_due limit (ts ++ ts') a = fire_due limit ts' (fire_due limit ts a).
Proof.
  revert a. induction ts as [|t rest IH]; intro a; simpl; [reflexivity|].
  destruct (timer_due t <=? limit); apply IH.
Qed.

(** Firing timers only removes timers: what is left is a part of what
    was pending, and a timer whose id no fired timer has is still there. *)
Lemma fire_due_timers limit ts a :
  saveTimer (fire_due limit ts a) = saveTimer a
  /\ next_timer (fire_due limit ts a) = next_timer a
  /\ editor (fire_due limit ts a) = editor a
  /\ exists keep,
       timers (fire_due limit ts a) = filter keep (timers a)
       /\ forall t, (forall u, In u ts -> timer_id u <> timer_id t) ->
                    keep t = true.
Proof.
  revert a. induction ts as [|t rest IH]; intro a; simpl.
  - repeat split. exists (fun _ => true). split; [|reflexivity].
    induction (timers a) as [|x l IHl]; simpl; [reflexivity|].
    now rewrite <- IHl.
  - destruct (timer_due t <=? limit).
    + destruct (IH (run_callback (timer_callback t)
                      (with_clock (Nat.max (clock a) (timer_due t))
                         (clearTimeout (timer_id t) a))))
        as (H1 & H2 & H3 & keep & H4 & H5).
      assert (F : forall x, saveTimer (run_callback (timer_callback t) x)
                            = saveTimer x
                /\ next_timer (run_callback (timer_callback t) x)
                   = next_timer x
                /\ editor (run_callback (timer_callback t) x) = editor x
                /\ timers (run_callback (timer_callback t) x) = timers x)
        by (intro x; destruct (timer_callback t); repeat split).
      destruct (F (with_clock (Nat.max (clock a) (timer_due t))
                     (clearTimeout (timer_id t) a))) as (F1 & F2 & F3 & F4).
      rewrite H1, H2, H3, H4, F1, F2, F3, F4. simpl.
      repeat split.
      exists (fun x => (negb (timer_id x =? timer_id t) && keep x)%bool).
      split; [apply filter_twice|].
      intros x Hx. apply andb_true_iff. split.
      * apply negb_true_iff, Nat.eqb_neq. intro E.
        apply (Hx t); [now left | now rewrite E].
      * apply H5. intros u Hu. apply Hx. now right.
    + destruct (IH a) as (H1 & H2 & H3 & keep & H4 & H5).
      repeat split; auto. exists keep. split; [exact H4|].
      intros x Hx. apply H5. intros u Hu. apply Hx. now right.
Qed.

(** Auto-advance timers send no save. *)
Lemma fire_due_next_tasks limit ts a :
  (forall t, In t ts -> timer_callback t = NextTask) ->
  filter is_save (sent (fire_due limit ts a)) = filter is_save (sent a).
Proof.
  revert a. induction ts as [|t rest IH]; intros a H; simpl; [reflexivity|].
  destruct (timer_due t <=? limit).
  - rewrite IH by (intros; apply H; now right).
    rewrite (H t) by now left. simpl.
    rewrite filter_app. simpl. apply app_nil_r.
  - apply IH. intros; apply H; now right.
Qed.

(** Auto-save timers do not change the active task. *)
Lemma fire_due_auto_saves limit ts a :
  (forall t, In t ts -> timer_callback t = AutoSave) ->
  currentTask (fire_due limit ts a) = currentTask a.
Proof.
  revert a. induction ts as [|t rest IH]; intros a H; simpl; [reflexivity|].
  destruct (timer_due t <=? limit).
  - rewrite IH by (intros; apply H; now right).
    rewrite (H t) by now left. reflexivity.
  - apply IH. intros; apply H; now right.
Qed.

Lemma auto_save_timers_filter keep a a' :
  timers a' = filter keep (timers a) ->
  auto_save_timers a' = filter keep (auto_save_timers a).
Proof.
  intro H. unfold auto_save_timers. rewrite H, !filter_twice.
  apply filter_ext. intro x. apply andb_comm.
Qed.

Lemma filter_length_le {A} (p : A -> bool) (l : list A) :
  List.length (filter p l) <= List.length l.
Proof.
  induction l as [|x l IH]; simpl; [lia|]. destruct (p x); simpl; lia.
Qed.

(** The invariant survives the loss of timers. *)
Lemma scheduler_ok_filter keep a a' :
  timers a' = filter keep (timers a) ->
  saveTimer a' = saveTimer a ->
  next_timer a' = next_timer a ->
  scheduler_ok a -> scheduler_ok a'.
Proof.
  intros Ht Hs Hn (H0 & H1 & H2 & H3). unfold scheduler_ok.
  rewrite (auto_save_timers_filter keep a a' Ht), Ht, Hs, Hn.
  split; [exact H0|]. split; [|split].
  - intros t Hin. apply filter_In in Hin. apply (H1 t). tauto.
  - intros t Hin Hcb. apply filter_In in Hin. apply H2; tauto.
  - eapply Nat.le_trans; [apply filter_length_le | exact H3].
Qed.

Lemma scheduler_ok_same a a' :
  timers a' = timers a ->
  saveTimer a' = saveTimer a ->
  next_timer a' = next_timer a ->
  scheduler_ok a -> scheduler_ok a'.
Proof.
  intros Ht Hs Hn (H0 & H1 & H2 & H3). unfold scheduler_ok, auto_save_timers.
  rewrite Ht, Hs, Hn. auto.
Qed.

(** The invariant survives a new auto-advance timer. *)
Lemma scheduler_ok_next_task a a' :
  timers a'
  = (timers a ++ [mkTimer (next_timer a) (clock a + 2000) NextTask])%list ->
  saveTimer a' = saveTimer a ->
  next_timer a' = S (next_timer a) ->
  scheduler_ok a -> scheduler_ok a'.
Proof.
  intros Ht Hs Hn (H0 & H1 & H2 & H3). unfold scheduler_ok, auto_save_timers.
  rewrite Ht, Hs, Hn. split; [lia|]. split; [|split].
  - intros t Hin. apply in_app_or in Hin. destruct Hin as [H|[H|[]]].
    + specialize (H1 t H). lia.
    + subst t. simpl. lia.
  - intros t Hin Hcb. apply in_app_or in Hin. destruct Hin as [H|[H|[]]].
    + now apply H2.
    + subst t. discriminate.
  - rewrite filter_app. simpl. rewrite app_nil_r. exact H3.
Qed.

End Timers.

(** ** Each edit re-arms the one timer *)

(** What an edit leaves armed: the auto-advance timers that were pending,
    then the new auto-save timer, due two seconds from now. *)
Lemma scheduleAutoSave_timers a :
  scheduler_ok a ->
  exists pending,
    timers (scheduleAutoSave a)
    = (pending ++ [mkTimer (next_timer a) (clock a + 2000) AutoSave])%list
    /\ forall t, In t pending ->
         In t (timers a) /\ timer_callback t = NextTask.
Proof.
  intros (H0 & H1 & H2 & H3). unfold scheduleAutoSave. simpl.
  assert (K : forall t, In t (timers a) ->
            timer_callback t = NextTask
            \/ (timer_callback t = AutoSave
                /\ saveTimer a = Some (timer_id t) /\ timer_id t <> 0)).
  { intros t Hin. destruct (timer_callback t) eqn:C; [right|now left].
    repeat split; [now apply H2|]. specialize (H1 t Hin). lia. }
  destruct (saveTimer a) as [id|] eqn:S.
  - destruct (id =? 0) eqn:Z.
    + exists (timers a). split; [reflexivity|].
      intros t Hin. split; [exact Hin|].
      destruct (K t Hin) as [C|(_ & E & Hz)]; [exact C|].
      inversion E; subst. apply Nat.eqb_eq in Z. contradiction.
    + exists (filter (fun t => negb (timer_id t =? id)) (timers a)).
      split; [reflexivity|].
      intros t Hin. apply filter_In in Hin. destruct Hin as [Hin Hid].
      split; [exact Hin|].
      destruct (K t Hin) as [C|(_ & E & _)]; [exact C|].
      inversion E; subst. rewrite Nat.eqb_refl in Hid. discriminate.
  - exists (timers a). split; [reflexivity|].
    intros t Hin. split; [exact Hin|].
    destruct (K t Hin) as [C|(_ & E & _)]; [exact C|discriminate].
Qed.

Lemma scheduleAutoSave_frame a :
  saveTimer (scheduleAutoSave a) = Some (next_timer a)
  /\ next_timer (scheduleAutoSave a) = S (next_timer a)
  /\ editor (scheduleAutoSave a) = editor a
  /\ clock (scheduleAutoSave a) = clock a
  /\ currentTask (scheduleAutoSave a) = currentTask a
  /\ sent (scheduleAutoSave a) = sent a.
Proof.
  unfold scheduleAutoSave. simpl.
  destruct (saveTimer a) as [id|]; [destruct (id =? 0)|]; repeat split.
Qed.

Lemma only_next_tasks_no_auto_save (l : list timer) :
  (forall t, In t l -> timer_callback t = NextTask) ->
  filter (fun t => match timer_callback t with
                   | AutoSave => true
                   | NextTask => false
                   end) l = [].
Proof.
  intro H. induction l as [|x l IH]; simpl; [reflexivity|].
  rewrite (H x) by now left. apply IH. intros; apply H; now right.
Qed.

Lemma scheduler_ok_edit a :
  scheduler_ok a -> scheduler_ok (scheduleAutoSave a).
Proof.
  intro Hok.
  destruct (scheduleAutoSave_timers a Hok) as (pending & Ht & Hp).
  destruct (scheduleAutoSave_frame a) as (Hs & Hn & _).
  destruct Hok as (H0 & H1 & H2 & H3).
  unfold scheduler_ok, auto_save_timers. rewrite Ht, Hs, Hn.
  split; [lia|]. split; [|split].
  - intros t Hin. apply in_app_or in Hin. destruct Hin as [H|[H|[]]].
    + destruct (Hp t H) as [Hin _]. specialize (H1 t Hin). lia.
    + subst t. simpl. lia.
  - intros t Hin Hcb. apply in_app_or in Hin. destruct Hin as [H|[H|[]]].
    + destruct (Hp t H) as [_ C]. congruence.
    + now subst t.
  - rewrite filter_app, only_next_tasks_no_auto_save by (intros; now apply Hp).
    simpl. lia.
Qed.

Lemma resume_timers b k r a :
  saveTimer (resume b k r a) = saveTimer a
  /\ ((timers (resume b k r a) = timers a
       /\ next_timer (resume b k r a) = next_timer a)
      \/ (timers (resume b k r a)
          = (timers a
               ++ [mkTimer (next_timer a) (clock a + 2000) NextTask])%list
          /\ next_timer (resume b k r a) = S (next_timer a))).
Proof.
  destruct k as [for_complete| | |taskId|]; simpl.
  - destruct r as [[|] d|]; destruct for_complete; simpl; auto.
  - destruct r as [[|] d|]; simpl; auto.
  - destruct r as [[|] d|]; simpl; auto.
    destruct (Z.ltb (data_lastTask d) 19); simpl; auto.
    destruct b; simpl; auto.
  - destruct r as [[|] d|]; simpl; auto.
  - auto.
Qed.

Lemma scheduler_ok_step b a e :
  scheduler_ok a -> scheduler_ok (step b a e).
Proof.
  intro Hok. destruct e as [text| | |taskId|ms|id r]; simpl.
  - apply scheduler_ok_edit.
    now apply (scheduler_ok_same a (with_editor text a)).
  - now apply (scheduler_ok_same a).
  - now apply (scheduler_ok_same a).
  - now apply (scheduler_ok_same a).
  - destruct (fire_due_timers (clock a + ms) (timers a) a)
      as (Hs & Hn & _ & keep & Ht & _).
    now apply (scheduler_ok_filter keep a).
  - unfold settle.
    destruct (find _ (in_flight a)) as [f|]; [|exact Hok].
    set (a0 := with_in_flight _ a).
    assert (Hok0 : scheduler_ok a0) by now apply (scheduler_ok_same a).
    destruct (resume_timers b (fetch_then f) r a0)
      as (Hs & [[Ht Hn]|[Ht Hn]]).
    + now apply (scheduler_ok_same a0).
    + now apply (scheduler_ok_next_task a0).
Qed.

Lemma scheduler_ok_new_app : scheduler_ok new_app.
Proof.
  unfold scheduler_ok. simpl. repeat split; try lia; intros t [].
Qed.

Lemma scheduler_ok_run b es a :
  scheduler_ok a -> scheduler_ok (run b a es).
Proof.
  revert a. induction es as [|e es IH]; intros a H; simpl; [exact H|].
  apply IH. now apply scheduler_ok_step.
Qed.

(** C3, as stated, fails: the learner types a, clicks save at once, and
    two seconds pass.  The click sends a save and leaves the debounce
    timer armed; the timer then sends a second save of the same text
    while the first has not settled: two saves for task 1 are in flight. *)
Lemma two_saves_in_flight :
  saves_in_flight 1
    (run PublicApp new_app [Input "a"; ClickSave; Elapse 2000]) = 2.
Proof. vm_compute. reflexivity. Qed.

(** C3, amended: after every sequence of edits, saves, completions, task
    switches, delays and answers, at most one debounce timer is armed
    (each edit cancels the one armed before it).  A manual save or a
    completion sends its save at once, whether or not another save is in
    flight, and leaves the timers as they are. *)
Theorem one_debounce_timer_and_immediate_saves b es a :
  List.length (auto_save_timers (run b new_app es)) <= 1
  /\ saves_in_flight (currentTask a) (step b a ClickSave)
     = S (saves_in_flight (currentTask a) a)
  /\ timers (step b a ClickSave) = timers a
  /\ saves_in_flight (currentTask a) (step b a ClickComplete)
     = S (saves_in_flight (currentTask a) a)
  /\ timers (step b a ClickComplete) = timers a.
Proof.
  split.
  - destruct (scheduler_ok_run b es new_app scheduler_ok_new_app)
      as (_ & _ & _ & H). exact H.
  - unfold saves_in_flight. simpl. rewrite !filter_app, !length_app. simpl.
    rewrite Z.eqb_refl. simpl. repeat split; lia || reflexivity.
Qed.

(** ** A burst of edits *)

(** An edit followed by less than two seconds of quiet sends no save. *)
Lemma edit_then_short_gap b a text gap :
  scheduler_ok a -> gap < 2000 ->
  let s2 := step b (step b a (Input text)) (Elapse gap) in
  scheduler_ok s2 /\ filter is_save (sent s2) = filter is_save (sent a).
Proof.
  intros Hok Hgap s2. split.
  - unfold s2. now repeat apply scheduler_ok_step.
  - unfold s2. cbn [step].
    assert (Hok0 : scheduler_ok (with_editor text a))
      by now apply (scheduler_ok_same a).
    destruct (scheduleAutoSave_timers _ Hok0) as (pending & Ht & Hp).
    destruct (scheduleAutoSave_frame (with_editor text a))
      as (_ & _ & _ & Hc & _ & Hsent).
    remember (scheduleAutoSave (with_editor text a)) as s.
    change (sent (with_clock (clock s + gap)
                    (fire_due (clock s + gap) (timers s) s)))
      with (sent (fire_due (clock s + gap) (timers s) s)).
    rewrite Ht, fire_due_app. cbn [fire_due timer_due].
    rewrite Hc. cbn [clock with_editor].
    replace (clock a + 2000 <=? clock a + gap) with false
      by (symmetry; apply Nat.leb_gt; lia).
    rewrite fire_due_next_tasks by (intros; now apply Hp).
    now rewrite Hsent.
Qed.

(** An edit followed by two seconds of quiet sends one save, of the text
    of the edit, and leaves no debounce timer armed. *)
Lemma edit_then_quiescence b a text q :
  scheduler_ok a -> 2000 <= q ->
  let f := step b (step b a (Input text)) (Elapse q) in
  filter is_save (sent f)
  = (filter is_save (sent a) ++ [FetchSaveText (currentTask f) text])%list
  /\ auto_save_timers f = [].
Proof.
  intros Hok Hq f. unfold f. cbn [step].
  assert (Hok0 : scheduler_ok (with_editor text a))
    by now apply (scheduler_ok_same a).
  destruct (scheduleAutoSave_timers _ Hok0) as (pending & Ht & Hp).
  destruct (scheduleAutoSave_frame (with_editor text a))
    as (_ & _ & He & Hc & _ & Hsent).
  remember (scheduleAutoSave (with_editor text a)) as s.
  rewrite Ht, fire_due_app. cbn [fire_due timer_due timer_id timer_callback].
  rewrite Hc. cbn [clock with_editor].
  replace (clock a + 2000 <=? clock a + q) with true
    by (symmetry; apply Nat.leb_le; lia).
  destruct (fire_due_timers (clock a + q) pending s)
    as (_ & _ & He' & keep & Ht' & _).
  remember (fire_due (clock a + q) pending s) as s'.
  split.
  - cbn. rewrite filter_app. cbn. f_equal.
    + rewrite Heqs', fire_due_next_tasks by (intros; now apply Hp).
      now rewrite Hsent.
    + now rewrite He', He.
  - unfold auto_save_timers. cbn. rewrite Ht', Ht.
    apply only_next_tasks_no_auto_save.
    intros t Hin. apply filter_In in Hin. destruct Hin as [Hin Hid].
    apply filter_In in Hin. destruct Hin as [Hin _].
    apply in_app_or in Hin. destruct Hin as [H|[H|[]]].
    + now apply Hp.
    + subst t. cbn in Hid. rewrite Nat.eqb_refl in Hid. discriminate.
Qed.

Lemma last_cons {A} (x d : A) (l : list A) : last (x :: l) d = last l x.
Proof.
  revert x d. induction l as [|y l IH]; intros x d; [reflexivity|].
  change (last (x :: y :: l) d) with (last (y :: l) d).
  now rewrite (IH y d), (IH y x).
Qed.

(** C8: a burst of edits, each less than two seconds after the one
    before, followed by two seconds (or more) without an edit: exactly one
    save is sent, it carries the text of the last edit of the burst and
    names the active task, and no debounce timer is left armed.  An edit
    leaves exactly one debounce timer armed, the new one, due two seconds
    later: the one armed before is cancelled. *)
Theorem burst_sends_one_save b a first rest q :
  scheduler_ok a ->
  Forall (fun p => fst p < 2000) rest ->
  2000 <= q ->
  let a' := run b a (burst first rest ++ [Elapse q]) in
  filter is_save (sent a')
  = (filter is_save (sent a)
       ++ [FetchSaveText (currentTask a') (last_text first rest)])%list
  /\ auto_save_timers a' = []
  /\ forall text,
       auto_save_timers (step b a (Input text))
       = [mkTimer (next_timer a) (clock a + 2000) AutoSave].
Proof.
  intros Hok Hgaps Hq a'.
  assert (G : filter is_save (sent a')
              = (filter is_save (sent a)
                   ++ [FetchSaveText (currentTask a')
                         (last_text first rest)])%list
              /\ auto_save_timers a' = []).
  { unfold a'. clear a'. revert a first Hok Hgaps.
    induction rest as [|[gap text'] rest' IH]; intros a first Hok Hgaps.
    - apply (edit_then_quiescence b a first q Hok Hq).
    - inversion Hgaps as [|p l Hgap Hrest]; subst. simpl in Hgap.
      destruct (edit_then_short_gap b a first gap Hok Hgap) as [Hok2 Hs2].
      specialize (IH _ text' Hok2 Hrest).
      unfold last_text in *. simpl map. rewrite last_cons.
      cbn [burst List.app run fold_left] in *. unfold run in IH.
      rewrite <- Hs2. exact IH. }
  destruct G as [G1 G2]. split; [exact G1|]. split; [exact G2|].
  intro text. cbn [step].
  assert (Hok0 : scheduler_ok (with_editor text a))
    by now apply (scheduler_ok_same a).
  destruct (scheduleAutoSave_timers _ Hok0) as (pending & Ht & Hp).
  unfold auto_save_timers. rewrite Ht, filter_app.
  rewrite only_next_tasks_no_auto_save by (intros; now apply Hp).
  reflexivity.
Qed.

(** ** Completion and the next task *)

(** The answer to the newest fetch resumes the function that waits for
    it. *)
Lemma settle_newest b n what k resp pending a :
  (forall f, In f pending -> fetch_id f < n) ->
  in_flight a = (pending ++ [mkFetch n what k])%list ->
  settle b n resp a = resume b k resp (with_in_flight pending a).
Proof.
  intros Hold Hin. unfold settle. rewrite Hin, find_append.
  assert (E : find (fun f => fetch_id f =? n) pending = None).
  { clear Hin. induction pending as [|x l IH]; simpl; [reflexivity|].
    replace (fetch_id x =? n) with false.
    - apply IH. intros; apply Hold; now right.
    - symmetry. apply Nat.eqb_neq.
      specialize (Hold x (or_introl eq_refl)). lia. }
  rewrite E. cbn [find fetch_id]. rewrite Nat.eqb_refl. cbn [fetch_then].
  do 2 f_equal. rewrite filter_app. cbn. rewrite Nat.eqb_refl. cbn.
  rewrite app_nil_r. clear Hin E.
  induction pending as [|x l IH]; simpl; [reflexivity|].
  replace (fetch_id x =? n) with false.
  - simpl. f_equal. apply IH. intros; apply Hold; now right.
  - symmetry. apply Nat.eqb_neq.
    specialize (Hold x (or_introl eq_refl)). lia.
Qed.

(** The state a successful completion ends in, before any time passes:
    the active task is the one the refresh reports; below 19,
    [public/app.js] has moved on already, the other copy has armed a
    timer. *)
Lemma completion_result b a save_answer refresh :
  fetches_ok a ->
  let a' := run b a (completion a save_answer refresh) in
  clock a' = clock a
  /\ if Z.ltb (data_lastTask refresh) 19
     then match b with
          | PublicApp =>
              currentTask a' = (data_lastTask refresh + 1)%Z
              /\ timers a' = timers a
          | EmbeddedApp =>
              currentTask a' = data_lastTask refresh
              /\ timers a'
                 = (timers a
                      ++ [mkTimer (next_timer a) (clock a + 2000) NextTask])%list
          end
     else currentTask a' = data_lastTask refresh /\ timers a' = timers a.
Proof.
  intros Hok a'. unfold a', completion, run. cbn [fold_left].
  destruct a as [u ct st ed ss cl ts nt fl nf sn].
  unfold fetches_ok in Hok. cbn [in_flight next_fetch] in *.
  assert (H1 : forall f, In f fl -> fetch_id f < S nf)
    by (intros f Hf; specialize (Hok f Hf); lia).
  assert (H2 : forall f, In f fl -> fetch_id f < S (S nf))
    by (intros f Hf; specialize (Hok f Hf); lia).
  cbn [step completeTask saveCurrentText fetch currentUser currentTask
       saveTimer editor saveStatus clock timers next_timer in_flight
       next_fetch sent].
  erewrite (settle_newest b nf _ _ save_answer fl); [|exact Hok|reflexivity].
  unfold completeTask, saveCurrentText, fetch.
  cbn [currentUser currentTask saveTimer editor saveStatus clock timers
       next_timer in_flight next_fetch sent].
  assert (S1 : exists ss',
    resume b (InSaveCurrentText true) save_answer
      (with_in_flight fl
         (mkApp u ct st ed ss cl ts nt
            (fl ++ [mkFetch nf (FetchSaveText ct ed) (InSaveCurrentText true)])
            (S nf) (sn ++ [FetchSaveText ct ed])))
    = mkApp u ct st ed ss' cl ts nt
        (fl ++ [mkFetch (S nf) (FetchComplete ct) InCompleteTaskMark])
        (S (S nf)) ((sn ++ [FetchSaveText ct ed]) ++ [FetchComplete ct]))
    by (destruct save_answer as [[|] d|]; eexists; reflexivity).
  destruct S1 as [ss' S1]. rewrite S1. cbn [step].
  erewrite (settle_newest b (S nf) _ _ _ fl); [|exact H1|reflexivity].
  cbn [resume with_in_flight fetch currentUser currentTask
       saveTimer editor saveStatus clock timers next_timer in_flight
       next_fetch sent].
  erewrite (settle_newest b (S (S nf)) _ _ _ fl); [|exact H2|reflexivity].
  cbn [resume with_in_flight with_user with_task currentUser currentTask
       saveTimer editor saveStatus clock timers next_timer in_flight
       next_fetch sent].
  destruct (Z.ltb (data_lastTask refresh) 19); [destruct b|];
    cbn; repeat split.
Qed.

(** C9, as stated, fails on [public/app.js]: the first task is completed,
    the three requests succeed, the refresh reports task 1.  The active
    task is 2 at once; no time has passed and no timer is pending. *)
Lemma public_app_advances_without_delay :
  let a' := run PublicApp new_app
              (completion new_app (Settled true (mkData None "" 0%Z []))
                 (mkData None "alice" 1%Z [(1%Z, 1%Z)])) in
  currentTask a' = 2%Z /\ clock a' = 0 /\ timers a' = [].
Proof. vm_compute. repeat split. Qed.

(** C9, amended: the active task T is completed, the completion mark and
    the progress refresh succeed, the refresh reports T as the last task,
    and no other auto-advance is pending.  With T below 19, the copy that
    follows [server.js] keeps T active for two seconds and switches to
    T + 1 when they are over; [public/app.js] switches to T + 1 at once,
    with no delay and no timer.  With T at 19 (or above) neither copy
    switches, then or later. *)
Theorem completion_advances b a save_answer refresh :
  fetches_ok a ->
  (forall t, In t (timers a) -> timer_callback t = AutoSave) ->
  data_lastTask refresh = currentTask a ->
  let T := currentTask a in
  let a' := run b a (completion a save_answer refresh) in
  ((T < 19)%Z ->
     match b with
     | PublicApp =>
         currentTask a' = (T + 1)%Z
         /\ clock a' = clock a /\ timers a' = timers a
     | EmbeddedApp =>
         currentTask a' = T
         /\ (forall d, d < 2000 -> currentTask (step b a' (Elapse d)) = T)
         /\ (forall d, 2000 <= d ->
               currentTask (step b a' (Elapse d)) = (T + 1)%Z)
     end)
  /\ ((19 <= T)%Z ->
        currentTask a' = T /\ timers a' = timers a
        /\ forall d, currentTask (step b a' (Elapse d)) = T).
Proof.
  intros Hok Hauto Hsync T a'.
  destruct (completion_result b a save_answer refresh Hok) as [Hc R].
  fold a' in Hc, R. rewrite Hsync in R. fold T in R.
  clearbody a'.
  split.
  - intro Hlt.
    replace (Z.ltb T 19) with true in R by (symmetry; now apply Z.ltb_lt).
    destruct b.
    + destruct R as [R1 R2]. auto.
    + destruct R as [R1 R2]. split; [exact R1|].
      assert (E : forall d,
        currentTask (step EmbeddedApp a' (Elapse d))
        = if clock a + 2000 <=? clock a + d then (T + 1)%Z else T).
      { intro d. cbn [step].
        change (currentTask (with_clock (clock a' + d)
                  (fire_due (clock a' + d) (timers a') a')))
          with (currentTask (fire_due (clock a' + d) (timers a') a')).
        rewrite R2, fire_due_app, Hc. cbn [fire_due timer_due timer_callback].
        destruct (clock a + 2000 <=? clock a + d).
        - cbn. rewrite fire_due_auto_saves by exact Hauto. now rewrite R1.
        - rewrite fire_due_auto_saves by exact Hauto. exact R1. }
      split; intros d Hd; rewrite E.
      * replace (clock a + 2000 <=? clock a + d) with false; [reflexivity|].
        symmetry. apply Nat.leb_gt. lia.
      * replace (clock a + 2000 <=? clock a + d) with true; [reflexivity|].
        symmetry. apply Nat.leb_le. lia.
  - intro Hge.
    replace (Z.ltb T 19) with false in R by (symmetry; apply Z.ltb_ge; lia).
    destruct R as [R1 R2]. split; [exact R1|]. split; [exact R2|].
    intro d. cbn [step].
    change (currentTask (with_clock (clock a' + d)
              (fire_due (clock a' + d) (timers a') a')))
      with (currentTask (fire_due (clock a' + d) (timers a') a')).
    rewrite R2, fire_due_auto_saves by exact Hauto. exact R1.
Qed.

(** * Instances

    Each property that has premises, applied to a concrete run. *)

Local Open Scope Z_scope.

(** alice saves a draft for task 1 in a database where bob has one: bob's
    rows are what they were, and her next load is answered as if bob had
    saved nothing in between. *)
Lemma cross_learner_isolation_witness :
  rows_of "uuid-bob"
    (snd (handle (JWT_SECRET None) (alice_saves 1002 (TaskInt 1) "mine")
            alice_and_bob))
  = rows_of "uuid-bob" alice_and_bob
  /\ fst (handle (JWT_SECRET None) (alice_loads 1009 (TaskInt 1))
            (serve (JWT_SECRET None)
               [alice_saves 1002 (TaskInt 1) "mine";
                bob_saves 1003 (TaskInt 1) "more of bob"] alice_and_bob))
     = fst (handle (JWT_SECRET None) (alice_loads 1009 (TaskInt 1))
              (serve (JWT_SECRET None)
                 [alice_saves 1002 (TaskInt 1) "mine"] alice_and_bob)).
Proof.
  split.
  - apply (cross_learner_isolation (JWT_SECRET None)
             (alice_saves 1002 (TaskInt 1) "mine") alice_and_bob
             "uuid-alice" "uuid-bob" 1000).
    + reflexivity.
    + reflexivity.
    + apply String.eqb_neq. reflexivity.
  - destruct (cross_learner_isolation (JWT_SECRET None)
                (alice_loads 1009 (TaskInt 1)) alice_and_bob
                "uuid-alice" "uuid-bob" 1000) as (_ & _ & _ & _ & H).
    + reflexivity.
    + reflexivity.
    + apply String.eqb_neq. reflexivity.
    + apply (H [alice_saves 1002 (TaskInt 1) "mine";
                bob_saves 1003 (TaskInt 1) "more of bob"]).
      repeat constructor.
Defined.

(** alice registers and points her last task at 5, in a course of 19. *)
Lemma last_task_in_range_when_supplied_in_range_witness :
  last_tasks_valid 19
    (serve (JWT_SECRET None)
       [register_alice; alice_sets_last_task 1001 (SqlInt 5)] empty_db)
  = true.
Proof.
  apply (last_task_in_range_when_supplied_in_range (JWT_SECRET None) 19
           [register_alice; alice_sets_last_task 1001 (SqlInt 5)]).
  - lia.
  - intros a [E|[E|[]]] R; subst a; simpl in *.
    + discriminate.
    + reflexivity.
Defined.

(** alice completes task 3 twice; afterwards bob saves and alice sets her
    last task: task 3 stays completed. *)
Lemma completion_is_one_way_witness :
  let db := alice_and_bob in
  let alice := mkUser "uuid-alice" "alice" 1000 (SqlInt 1) in
  let db1 := snd (post_task_complete 1002 (TaskInt 3) "uuid-alice" db) in
  let db2 := snd (post_task_complete 1003 (TaskInt 3) "uuid-alice" db1) in
  select_user_by_id "uuid-alice" db = Some alice
  /\ completed_in "uuid-alice" (TaskInt 3) db1 = true
  /\ completed_in "uuid-alice" (TaskInt 3) db2 = true
  /\ completed_in "uuid-alice" (TaskInt 3)
       (serve (JWT_SECRET None)
          [bob_saves 1004 (TaskInt 3) "x";
           alice_sets_last_task 1005 (SqlInt 4)] db2) = true.
Proof.
  intros db alice db1 db2.
  assert (Hu : select_user_by_id "uuid-alice" db = Some alice)
    by reflexivity.
  destruct (completion_is_one_way (JWT_SECRET None) "uuid-alice" alice
              (TaskInt 3) 1002 1003 db
              [bob_saves 1004 (TaskInt 3) "x";
               alice_sets_last_task 1005 (SqlInt 4)] Hu)
    as (C1 & C2 & _ & C4).
  split; [exact Hu|]. split; [exact C1|]. split; [exact C2|].
  apply C4. exact C2.
Defined.

(** Three registrations: a name of two characters, a name that is taken,
    a new name. *)
Lemma register_outcomes_witness :
  let secret := JWT_SECRET None in
  let ask name := mkReq PostAuthRegister None (Some name) SqlNull None in
  post_auth_register secret 2000 "uuid-2" (ask "al") alice_and_bob
  = (Reply 400 (JError "Username must be at least 3 characters"),
     alice_and_bob)
  /\ post_auth_register secret 2000 "uuid-2" (ask "alice") alice_and_bob
     = (Reply 409 (JError "Username already exists"), alice_and_bob)
  /\ fst (post_auth_register secret 2000 "uuid-carol" (ask "carol")
            alice_and_bob)
     = Reply 200 (JAuth (jwt_sign "uuid-carol" secret 2000) "carol"
                        "uuid-carol" (SqlInt 1)).
Proof.
  intros secret ask. split; [|split].
  - apply (register_outcomes secret 2000 "uuid-2" PostAuthRegister None
             SqlNull None "al" alice_and_bob).
    simpl. lia.
  - apply (register_outcomes secret 2000 "uuid-2" PostAuthRegister None
             SqlNull None "alice" alice_and_bob).
    + simpl. lia.
    + discriminate.
  - destruct (register_outcomes secret 2000 "uuid-carol" PostAuthRegister
                None SqlNull None "carol" alice_and_bob) as (_ & _ & H).
    destruct H as (E & _); [simpl; lia | reflexivity | reflexivity |].
    unfold ask. rewrite E. reflexivity.
Defined.

(** alice saves under the identifier abc and completes task 99. *)
Lemma no_validation_of_identifiers_witness :
  fst (handle (JWT_SECRET None) (alice_saves 1002 (TaskText "abc") "text")
         alice_and_bob) = Reply 200 JSuccess
  /\ fst (handle (JWT_SECRET None) (alice_completes 1002 (TaskInt 99))
            alice_and_bob) = Reply 200 JSuccess
  /\ handle (JWT_SECRET None) (alice_sets_last_task 1002 (SqlInt 7)) empty_db
     = (Reply 200 JSuccess, empty_db).
Proof.
  split; [|split].
  - destruct (no_validation_of_identifiers (JWT_SECRET None)
                (alice_saves 1002 (TaskText "abc") "text") alice_and_bob
                alice_token "uuid-alice" eq_refl eq_refl)
      as (H & _ & _).
    exact (proj1 (H (TaskText "abc") eq_refl)).
  - destruct (no_validation_of_identifiers (JWT_SECRET None)
                (alice_completes 1002 (TaskInt 99)) alice_and_bob
                alice_token "uuid-alice" eq_refl eq_refl)
      as (_ & H & _).
    exact (proj1 (H (TaskInt 99) eq_refl)).
  - destruct (no_validation_of_identifiers (JWT_SECRET None)
                (alice_sets_last_task 1002 (SqlInt 7)) empty_db
                alice_token "uuid-alice" eq_refl eq_refl)
      as (_ & _ & H).
    destruct (H eq_refl) as [R D].
    rewrite (surjective_pairing (handle _ _ _)), R, (D eq_refl).
    reflexivity.
Defined.

Local Open Scope nat_scope.

(** h, he, hel typed half a second and then 1999 ms apart, then two
    seconds of quiet: one save, of hel, for task 1. *)
Lemma burst_sends_one_save_witness :
  filter is_save
    (sent (run PublicApp new_app
             (burst "h" [(500, "he"); (1999, "hel")] ++ [Elapse 2000])))
  = [FetchSaveText 1 "hel"].
Proof.
  destruct (burst_sends_one_save PublicApp new_app "h"
              [(500, "he"); (1999, "hel")] 2000) as (H & _).
  - exact scheduler_ok_new_app.
  - repeat constructor; simpl; lia.
  - lia.
  - exact H.
Defined.

(** Task 1 is completed in a fresh page, in both copies. *)
Lemma completion_advances_witness :
  let ok := Settled true (mkData None "" 0%Z []) in
  let refresh := mkData None "alice" 1%Z [(1%Z, 1%Z)] in
  currentTask (run PublicApp new_app (completion new_app ok refresh)) = 2%Z
  /\ currentTask
       (step EmbeddedApp
          (run EmbeddedApp new_app (completion new_app ok refresh))
          (Elapse 1999)) = 1%Z
  /\ currentTask
       (step EmbeddedApp
          (run EmbeddedApp new_app (completion new_app ok refresh))
          (Elapse 2000)) = 2%Z.
Proof.
  intros ok refresh.
  assert (F : fetches_ok new_app) by (intros f []).
  assert (A : forall t, In t (timers new_app) -> timer_callback t = AutoSave)
    by (intros t []).
  destruct (completion_advances PublicApp new_app ok refresh F A eq_refl)
    as [P _].
  destruct (completion_advances EmbeddedApp new_app ok refresh F A eq_refl)
    as [E _].
  assert (L : (currentTask new_app < 19)%Z) by (simpl; lia).
  destruct (P L) as (P1 & _). destruct (E L) as (_ & E2 & E3).
  split; [exact P1|]. split.
  - apply E2. lia.
  - apply E3. lia.
Defined.

(** * Further properties of the server *)

Local Open Scope Z_scope.

(** ** Refused requests *)

(** X1: a protected route called without a token (no [Authorization]
    header, a header of one word, or an empty second word) answers 401
    No token provided and leaves the database as it is. *)
Theorem missing_token_is_refused secret a db :
  protected (req_route (arrival_request a)) = true ->
  no_token (bearer_token (arrival_request a)) = true ->
  handle secret a db = (Reply 401 (JError "No token provided"), db).
Proof.
  intros Hp Hn. unfold handle.
  destruct (req_route (arrival_request a)); try discriminate;
    unfold verifyToken; rewrite Hn; reflexivity.
Qed.

Lemma missing_token_is_refused_witness :
  handle (JWT_SECRET None)
    (mkArrival 1002 "unused"
       (mkReq (GetTaskText (TaskInt 1)) (Some [Raw "Bearer"]) None SqlNull
              None)) alice_and_bob
  = (Reply 401 (JError "No token provided"), alice_and_bob).
Proof.
  apply (missing_token_is_refused (JWT_SECRET None)); reflexivity.
Defined.

(** X2: a protected route called with a token that was signed with
    another key, or that is thirty days old or older, or that is no
    signed token at all, answers 401 Invalid token and leaves the
    database as it is.  The last second of validity is the one before
    [iat + 30 days]. *)
Theorem invalid_token_is_refused secret a db t :
  protected (req_route (arrival_request a)) = true ->
  bearer_token (arrival_request a) = Some t ->
  match t with
  | Signed key _ iat => key <> secret \/ iat + THIRTY_DAYS <= arrival_now a
  | Raw text => text <> ""
  end ->
  handle secret a db = (Reply 401 (JError "Invalid token"), db).
Proof.
  intros Hp Ht Hbad.
  assert (E : forall next,
            verifyToken secret (arrival_now a) (arrival_request a) next db
            = (Reply 401 (JError "Invalid token"), db)).
  { intro next. unfold verifyToken. rewrite Ht.
    destruct t as [key uid iat|text]; cbn [no_token jwt_verify].
    - replace (String.eqb key secret
               && Z.ltb (arrival_now a) (iat + THIRTY_DAYS))%bool
        with false; [reflexivity|].
      symmetry. apply andb_false_iff. destruct Hbad as [H|H].
      + left. now apply String.eqb_neq.
      + right. apply Z.ltb_ge. exact H.
    - replace (String.eqb text "") with false; [reflexivity|].
      symmetry. now apply String.eqb_neq. }
  unfold handle.
  destruct (req_route (arrival_request a)); try discriminate; apply E.
Qed.

Lemma invalid_token_is_refused_witness :
  handle (JWT_SECRET None)
    (alice_saves (1000 + THIRTY_DAYS) (TaskInt 1) "late") alice_and_bob
  = (Reply 401 (JError "Invalid token"), alice_and_bob).
Proof.
  apply (invalid_token_is_refused (JWT_SECRET None)
           (alice_saves (1000 + THIRTY_DAYS) (TaskInt 1) "late")
           alice_and_bob alice_token).
  - reflexivity.
  - reflexivity.
  - right. simpl. lia.
Defined.

(** ** Login *)

Lemma js_or_truthy v : js_truthy (js_or v (SqlInt 1)) = true.
Proof.
  unfold js_or. destruct (js_truthy v) eqn:E; [exact E|reflexivity].
Qed.

(** X3: login with an unknown username answers 404 and changes nothing.
    Login with the username of a learner answers 200 with that learner's
    name and identifier, a token signed now for that identifier (it
    verifies for thirty days), and the learner's last task, or 1 where the
    stored value is 0, NULL or the empty text; it changes nothing
    either. *)
Theorem login_outcomes secret now route auth task c name db :
  let req := mkReq route auth (Some name) task c in
  let out := post_auth_login secret now req db in
  (select_user_by_username name db = None ->
     out = (Reply 404 (JError "User not found"), db))
  /\ (forall u, select_user_by_username name db = Some u ->
        user_username u = name
        /\ out = (Reply 200 (JAuth (jwt_sign (user_id u) secret now) name
                               (user_id u)
                               (js_or (user_last_task u) (SqlInt 1))), db)
        /\ js_truthy (js_or (user_last_task u) (SqlInt 1)) = true
        /\ forall later, now <= later < now + THIRTY_DAYS ->
             jwt_verify (jwt_sign (user_id u) secret now) secret later
             = Some (user_id u)).
Proof.
  intros req out. unfold out, post_auth_login. simpl. split.
  - intro H. now rewrite H.
  - intros u H. rewrite H.
    assert (N : user_username u = name).
    { unfold select_user_by_username in H. apply find_some in H.
      now apply String.eqb_eq. }
    rewrite N. repeat split.
    + apply js_or_truthy.
    + intros later Hl.
      change (jwt_verify (jwt_sign (user_id u) secret now) secret later
              = Some (user_id u)).
      rewrite jwt_verify_sign.
      replace (Z.ltb later (now + THIRTY_DAYS)) with true; [reflexivity|].
      symmetry. apply Z.ltb_lt. lia.
Qed.

Lemma login_outcomes_witness :
  let ask name := mkReq PostAuthLogin None (Some name) SqlNull None in
  post_auth_login (JWT_SECRET None) 5000 (ask "nobody") alice_and_bob
  = (Reply 404 (JError "User not found"), alice_and_bob)
  /\ post_auth_login (JWT_SECRET None) 5000 (ask "bob") alice_and_bob
     = (Reply 200 (JAuth (jwt_sign "uuid-bob" (JWT_SECRET None) 5000) "bob"
                         "uuid-bob" (SqlInt 1)), alice_and_bob).
Proof.
  intro ask. split.
  - apply (login_outcomes (JWT_SECRET None) 5000 PostAuthLogin None SqlNull
             None "nobody" alice_and_bob). reflexivity.
  - destruct (login_outcomes (JWT_SECRET None) 5000 PostAuthLogin None
                SqlNull None "bob" alice_and_bob) as [_ H].
    destruct (H (mkUser "uuid-bob" "bob" 1000 (SqlInt 1)) eq_refl)
      as (_ & E & _).
    exact E.
Defined.

(** ** Learner rows *)

Lemma find_map_same {A} (p : A -> bool) (f : A -> A) (l : list A) :
  (forall x, p (f x) = p x) ->
  find p (map f l) = option_map f (find p l).
Proof.
  intro H. induction l as [|x l IH]; simpl; [reflexivity|].
  rewrite H. destruct (p x); [reflexivity | exact IH].
Qed.

Lemma verifyToken_keeps (P : database -> Prop) secret now req next db :
  P db -> (forall uid, P (snd (next uid db))) ->
  P (snd (verifyToken secret now req next db)).
Proof.
  intros H Hn.
  destruct (verifyToken_cases secret now req next db)
    as [[m E]|(t & uid & _ & _ & E)]; rewrite E; simpl; auto.
Qed.

Lemma insert_user_inv id name now db db' :
  insert_user id name now db = Some db' ->
  existsb (fun u => String.eqb (user_id u) id
                    || String.eqb (user_username u) name)%bool (users db)
  = false
  /\ db' = mkDb (users db ++ [mkUser id name now (SqlInt 1)])
                (texts db) (texts_seq db) (progress db).
Proof.
  unfold insert_user. destruct (existsb _ _); [discriminate|].
  intro H. inversion H. auto.
Qed.

(** The row a username or an identifier selects keeps its identifier,
    its name and its creation time through every effect. *)
Lemma binding_effect name db db' u :
  effect db db' ->
  select_user_by_username name db = Some u ->
  exists u', select_user_by_username name db' = Some u'
             /\ user_id u' = user_id u
             /\ user_username u' = user_username u.
Proof.
  intros E H; destruct E as [|id n now db' E|v uid| |];
    try solve [exists u; auto].
  - apply insert_user_inv in E. destruct E as [_ E]. subst db'.
    exists u. unfold select_user_by_username in *. simpl.
    rewrite find_append, H. auto.
  - unfold select_user_by_username in *. simpl.
    rewrite find_map_same.
    + rewrite H. simpl. eexists. split; [reflexivity|].
      destruct (String.eqb (user_id u) uid); auto.
    + intro x. now destruct (String.eqb (user_id x) uid).
Qed.

Lemma register_accepted secret now uuid req db b db1 :
  post_auth_register secret now uuid req db = (Reply 200 b, db1) ->
  exists name, body_username req = Some name
               /\ (3 <= String.length name)%nat
               /\ insert_user uuid name now db = Some db1
               /\ b = JAuth (jwt_sign uuid secret now) name uuid (SqlInt 1).
Proof.
  unfold post_auth_register.
  destruct (body_username req) as [name|]; [|discriminate].
  destruct (String.eqb name "" || Nat.ltb (String.length name) 3)%bool
    eqn:C; [discriminate|].
  destruct (insert_user uuid name now db) as [d|] eqn:I; [|discriminate].
  intro H. inversion H; subst. exists name. repeat split; auto.
  apply orb_false_iff in C. destruct C as [_ C].
  now apply Nat.ltb_ge in C.
Qed.

(** X4: once a registration has been accepted, a login with that username
    answers 200 with the identifier the registration gave, whatever
    requests were served in between: no request removes a learner or
    changes a learner's name or identifier. *)
Theorem login_after_register secret t0 uuid req db b db1 arrivals now :
  post_auth_register secret t0 uuid req db = (Reply 200 b, db1) ->
  exists name lastTask,
    body_username req = Some name
    /\ post_auth_login secret now req (serve secret arrivals db1)
       = (Reply 200 (JAuth (jwt_sign uuid secret now) name uuid lastTask),
          serve secret arrivals db1).
Proof.
  intro H. apply register_accepted in H.
  destruct H as (name & Hb & _ & Hi & _).
  apply insert_user_inv in Hi. destruct Hi as [Hfree Hdb1].
  assert (S1 : select_user_by_username name db1
               = Some (mkUser uuid name t0 (SqlInt 1))).
  { subst db1. unfold select_user_by_username. simpl. rewrite find_append.
    replace (find _ (users db)) with (@None user_row).
    - simpl. now rewrite String.eqb_refl.
    - symmetry. clear -Hfree.
      induction (users db) as [|x l IH]; simpl in *; [reflexivity|].
      apply orb_false_iff in Hfree. destruct Hfree as [Hx Hl].
      apply orb_false_iff in Hx. destruct Hx as [_ Hx]. rewrite Hx. auto. }
  assert (S2 : exists u', select_user_by_username name
                            (serve secret arrivals db1) = Some u'
                          /\ user_id u' = uuid /\ user_username u' = name).
  { apply (serve_invariant
             (fun d => exists u', select_user_by_username name d = Some u'
                                  /\ user_id u' = uuid
                                  /\ user_username u' = name)).
    - intros x y E (u & Hu & Hid & Hn).
      destruct (binding_effect name x y u E Hu) as (u' & Hu' & Hid' & Hn').
      exists u'. repeat split; congruence.
    - eexists. split; [exact S1|]. auto. }
  destruct S2 as (u' & Hu' & Hid & Hn).
  exists name, (js_or (user_last_task u') (SqlInt 1)). split; [exact Hb|].
  unfold post_auth_login. rewrite Hb, Hu', Hid, Hn. reflexivity.
Qed.

Lemma login_after_register_witness :
  exists lastTask,
    post_auth_login (JWT_SECRET None) 9000 (arrival_request register_alice)
      (serve (JWT_SECRET None)
         [register_bob; alice_sets_last_task 1500 (SqlInt 7)]
         (snd (handle (JWT_SECRET None) register_alice empty_db)))
    = (Reply 200 (JAuth (jwt_sign "uuid-alice" (JWT_SECRET None) 9000)
                        "alice" "uuid-alice" lastTask),
       serve (JWT_SECRET None)
         [register_bob; alice_sets_last_task 1500 (SqlInt 7)]
         (snd (handle (JWT_SECRET None) register_alice empty_db))).
Proof.
  destruct (login_after_register (JWT_SECRET None) 1000 "uuid-alice"
              (arrival_request register_alice) empty_db
              (JAuth alice_token "alice" "uuid-alice" (SqlInt 1))
              (snd (handle (JWT_SECRET None) register_alice empty_db))
              [register_bob; alice_sets_last_task 1500 (SqlInt 7)] 9000
              eq_refl) as (name & lastTask & Hn & H).
  exists lastTask. simpl in Hn. inversion Hn; subst name. exact H.
Defined.

Lemma map_update_last_task {B} (g : user_row -> B) v uid (l : list user_row) :
  (forall u w, g (mkUser (user_id u) (user_username u) (user_created_at u) w)
               = g u) ->
  map g (map (fun u => if String.eqb (user_id u) uid
                       then mkUser (user_id u) (user_username u)
                                   (user_created_at u) v
                       else u) l) = map g l.
Proof.
  intro H. induction l as [|x l IH]; simpl; [reflexivity|].
  rewrite IH. f_equal. destruct (String.eqb (user_id x) uid); auto.
Qed.

Lemma unused_key_not_in (g : user_row -> string) (k : string)
    (l : list user_row) (p : user_row -> bool) :
  (forall u, String.eqb (g u) k = true -> p u = true) ->
  existsb p l = false -> ~ In k (map g l).
Proof.
  intros Hp H Hin. apply in_map_iff in Hin. destruct Hin as (u & Hu & Hin).
  assert (existsb p l = true).
  { apply existsb_exists. exists u. split; [exact Hin|].
    apply Hp. rewrite Hu. apply String.eqb_refl. }
  congruence.
Qed.

Lemma NoDup_append_new {A} (k : A) (l : list A) :
  ~ In k l -> NoDup l -> NoDup (l ++ [k]).
Proof.
  intros Hk Hl. induction Hl as [|x l Hx Hl IH]; simpl.
  - constructor; [intros []|constructor].
  - constructor.
    + intro Hin. apply in_app_or in Hin. destruct Hin as [Hin|[Hin|[]]].
      * contradiction.
      * apply Hk. now left.
    + apply IH. intro Hin. apply Hk. now right.
Qed.

(** X5: after any sequence of requests no two learners share a username
    and no two share an identifier. *)
Theorem usernames_and_ids_are_unique secret arrivals :
  let db := serve secret arrivals empty_db in
  NoDup (map user_username (users db)) /\ NoDup (map user_id (users db)).
Proof.
  apply (serve_invariant
           (fun d => NoDup (map user_username (users d))
                     /\ NoDup (map user_id (users d)))).
  - intros x y E [Hn Hi]; destruct E as [|id n now y E|v uid| |]; auto.
    + apply insert_user_inv in E. destruct E as [Hfree E]. subst y. simpl.
      rewrite !map_app. simpl. split.
      * apply NoDup_append_new; [|exact Hn].
        apply (unused_key_not_in user_username n _ _) with (2 := Hfree).
        intros u H. rewrite H. apply orb_true_r.
      * apply NoDup_append_new; [|exact Hi].
        apply (unused_key_not_in user_id id _ _) with (2 := Hfree).
        intros u H. rewrite H. reflexivity.
    + simpl. rewrite !map_update_last_task by reflexivity. auto.
  - split; constructor.
Qed.

Lemma names_long_step secret a db :
  Forall (fun u => (3 <= String.length (user_username u))%nat) (users db) ->
  Forall (fun u => (3 <= String.length (user_username u))%nat)
         (users (snd (handle secret a db))).
Proof.
  intro H. unfold handle. destruct (req_route (arrival_request a)).
  - destruct (post_auth_register secret (arrival_now a) (arrival_uuid a)
                (arrival_request a) db) as [r d] eqn:E.
    destruct r as [status body|].
    + destruct (Z.eq_dec status 200) as [->|Hs].
      * apply register_accepted in E.
        destruct E as (name & _ & Hlen & Hi & _).
        apply insert_user_inv in Hi. destruct Hi as [_ Hd]. subst d. simpl.
        apply Forall_app. split; [exact H|]. now repeat constructor.
      * replace d with db; [exact H|].
        revert E. unfold post_auth_register.
        destruct (body_username _); [|now inversion 1].
        destruct (_ || _)%bool; [now inversion 1|].
        destruct (insert_user _ _ _ _); inversion 1; congruence.
    + revert E. unfold post_auth_register.
      destruct (body_username _); [|discriminate].
      destruct (_ || _)%bool; [discriminate|].
      destruct (insert_user _ _ _ _); discriminate.
  - unfold post_auth_login.
    now destruct (match body_username _ with Some _ => _ | None => _ end).
  - apply verifyToken_keeps; [exact H|]. intro uid.
    unfold get_user_progress. now destruct (select_user_by_id uid db).
  - apply verifyToken_keeps; [exact H|]. intro uid. simpl.
    induction H as [|x l Hx Hl IH]; simpl; constructor; auto.
    now destruct (String.eqb (user_id x) uid).
  - now apply verifyToken_keeps.
  - now apply verifyToken_keeps.
  - now apply verifyToken_keeps.
Qed.

(** X6: after any sequence of requests every stored username has at
    least three characters. *)
Theorem stored_usernames_have_three_characters secret arrivals :
  Forall (fun u => (3 <= String.length (user_username u))%nat)
         (users (serve secret arrivals empty_db)).
Proof.
  assert (G : forall db,
            Forall (fun u => (3 <= String.length (user_username u))%nat)
                   (users db) ->
            Forall (fun u => (3 <= String.length (user_username u))%nat)
                   (users (serve secret arrivals db))).
  { induction arrivals as [|a rest IH]; intros db H; simpl; [exact H|].
    apply IH. now apply names_long_step. }
  apply G. constructor.
Qed.

(** ** What changes the database *)

(** X7: login, the progress route and the load of a draft never change
    the database, whatever they answer; and a request that is answered
    with anything but 200 (400, 401, 404, 409), or that throws, changes
    nothing on any route. *)
Theorem reads_and_refusals_change_nothing secret a db :
  (reads_only (req_route (arrival_request a)) = true ->
     snd (handle secret a db) = db)
  /\ (forall status body,
        fst (handle secret a db) = Reply status body -> status <> 200 ->
        snd (handle secret a db) = db)
  /\ (fst (handle secret a db) = Uncaught -> snd (handle secret a db) = db).
Proof.
  assert (V : forall next,
            (forall uid, fst (next uid db) = Reply 200 JSuccess) ->
            (forall status body,
               fst (verifyToken secret (arrival_now a) (arrival_request a)
                      next db) = Reply status body -> status <> 200 ->
               snd (verifyToken secret (arrival_now a) (arrival_request a)
                      next db) = db)
            /\ (fst (verifyToken secret (arrival_now a) (arrival_request a)
                       next db) = Uncaught ->
                snd (verifyToken secret (arrival_now a) (arrival_request a)
                       next db) = db)).
  { intros next Hn.
    destruct (verifyToken_cases secret (arrival_now a) (arrival_request a)
                next db) as [[m E]|(t & uid & _ & _ & E)]; rewrite E.
    - split; reflexivity.
    - rewrite Hn. split; [|discriminate].
      intros status body H. inversion H. congruence. }
  assert (R : forall next,
            (forall uid, snd (next uid db) = db) ->
            snd (verifyToken secret (arrival_now a) (arrival_request a)
                   next db) = db).
  { intros next Hn.
    destruct (verifyToken_cases secret (arrival_now a) (arrival_request a)
                next db) as [[m E]|(t & uid & _ & _ & E)]; rewrite E; auto. }
  unfold handle. destruct (req_route (arrival_request a)); simpl.
  - split; [discriminate|]. unfold post_auth_register.
    destruct (body_username _); [|split; reflexivity].
    destruct (_ || _)%bool; [split; reflexivity|].
    destruct (insert_user _ _ _ _); simpl; split;
      try reflexivity; try discriminate.
    intros status body H. inversion H. congruence.
  - unfold post_auth_login.
    destruct (match body_username _ with Some _ => _ | None => _ end);
      repeat split.
  - assert (E : snd (verifyToken secret (arrival_now a) (arrival_request a)
                       get_user_progress db) = db).
    { apply R. intro uid. unfold get_user_progress.
      now destruct (select_user_by_id uid db). }
    rewrite E. repeat split.
  - split; [discriminate|]. now apply V.
  - split; [discriminate|]. now apply V.
  - assert (E : snd (verifyToken secret (arrival_now a) (arrival_request a)
                       (get_task_text taskId) db) = db)
      by now apply R.
    rewrite E. repeat split.
  - split; [discriminate|]. now apply V.
Qed.

Lemma reads_and_refusals_change_nothing_witness :
  snd (handle (JWT_SECRET None) (alice_loads 1002 (TaskInt 1)) alice_and_bob)
  = alice_and_bob
  /\ snd (handle (JWT_SECRET None) register_bob alice_and_bob)
     = alice_and_bob.
Proof.
  split.
  - destruct (reads_and_refusals_change_nothing (JWT_SECRET None)
                (alice_loads 1002 (TaskInt 1)) alice_and_bob) as (H & _ & _).
    apply H. reflexivity.
  - destruct (reads_and_refusals_change_nothing (JWT_SECRET None)
                register_bob alice_and_bob) as (_ & H & _).
    apply (H 409 (JError "Username already exists")).
    + reflexivity.
    + lia.
Defined.

(** ** Drafts, further *)

(** X8: a save changes what a load answers for its own (learner, task)
    pair at most: the answer for every other pair is what it was. *)
Theorem save_leaves_other_drafts now task' req uid' uid task db :
  uid <> uid' \/ task <> task' ->
  fst (get_task_text task uid (snd (post_task_text now task' req uid' db)))
  = fst (get_task_text task uid db).
Proof.
  intro Hne. unfold get_task_text, post_task_text, select_text. simpl.
  rewrite find_append.
  destruct (find _ (texts db)); [reflexivity|]. simpl.
  replace (String.eqb uid' uid && task_key_eqb task' task)%bool with false;
    [reflexivity|].
  symmetry. apply not_true_is_false. intro K. apply key_match_eq in K.
  destruct K. destruct Hne; congruence.
Qed.

Lemma save_leaves_other_drafts_witness :
  fst (get_task_text (TaskInt 1) "uuid-bob"
         (snd (post_task_text 1002 (TaskInt 1)
                 (arrival_request (alice_saves 1002 (TaskInt 1) "mine"))
                 "uuid-alice" alice_and_bob)))
  = fst (get_task_text (TaskInt 1) "uuid-bob" alice_and_bob).
Proof.
  apply save_leaves_other_drafts. left.
  apply String.eqb_neq. reflexivity.
Defined.

Lemma select_text_effect uid task r db db' :
  effect db db' ->
  select_text uid task db = Some r -> select_text uid task db' = Some r.
Proof.
  intros E H; destruct E as [|id n now db' E| | |]; auto.
  - apply insert_user_inv in E. destruct E as [_ E]. now subst db'.
  - now apply load_keeps_oldest.
Qed.

(** X9: once a (learner, task) pair has a draft, the load of that pair
    answers the content of that first draft after every further sequence
    of requests, saves for the same pair included. *)
Theorem first_draft_is_kept secret uid task r arrivals db :
  select_text uid task db = Some r ->
  fst (get_task_text task uid (serve secret arrivals db))
  = Reply 200 (JContent (text_content r)).
Proof.
  intro H. unfold get_task_text. simpl.
  assert (E : select_text uid task (serve secret arrivals db) = Some r).
  { apply (serve_invariant (fun d => select_text uid task d = Some r));
      [|exact H].
    intros x y E. now apply select_text_effect. }
  now rewrite E.
Qed.

Lemma first_draft_is_kept_witness :
  fst (get_task_text (TaskInt 1) "uuid-bob"
         (serve (JWT_SECRET None)
            [bob_saves 1005 (TaskInt 1) "second";
             bob_saves 1006 (TaskInt 1) "third"] alice_and_bob))
  = Reply 200 (JContent (Some "bob's text")).
Proof.
  apply (first_draft_is_kept (JWT_SECRET None) "uuid-bob" (TaskInt 1)
           (mkText 1 "uuid-bob" (TaskInt 1) (Some "bob's text") 1001)).
  reflexivity.
Defined.

(** ** Progress, further *)

(** X10: after any sequence of requests every entry the progress route
    lists, for any learner, is a completed one: a row with [completed]
    unset never exists. *)
Theorem listed_entries_are_completed secret arrivals uid :
  Forall (fun e => snd e = SQL_TRUE)
         (select_progress uid (serve secret arrivals empty_db)).
Proof.
  assert (G : Forall (fun r => progress_completed r = SQL_TRUE)
                     (progress (serve secret arrivals empty_db))).
  { apply (serve_invariant
             (fun d => Forall (fun r => progress_completed r = SQL_TRUE)
                              (progress d))).
    - intros x y E H; destruct E as [|id n now y E| | |]; auto.
      + apply insert_user_inv in E. destruct E as [_ E]. now subst y.
      + simpl. apply Forall_app. split.
        * apply Forall_forall. intros r Hr. apply filter_In in Hr.
          rewrite Forall_forall in H. now apply H.
        * now repeat constructor.
    - constructor. }
  unfold select_progress. apply Forall_forall. intros e He.
  apply in_map_iff in He. destruct He as (r & Hr & Hin). subst e. simpl.
  apply In_index_order, filter_In in Hin. rewrite Forall_forall in G.
  now apply G.
Qed.

(** The entries come in the order of the primary key, not in the order
    the tasks were completed in. *)
Example entries_in_task_order :
  select_progress "uuid-alice"
    (serve (JWT_SECRET None)
       [register_alice; alice_completes 1001 (TaskInt 5);
        alice_completes 1002 (TaskInt 3)] empty_db)
  = [(TaskInt 3, SQL_TRUE); (TaskInt 5, SQL_TRUE)].
Proof. reflexivity. Qed.



(** * Further properties of the client *)

Local Open Scope nat_scope.

(** ** Fetches *)

Lemma fetches_ok_fetch r k a : fetches_ok a -> fetches_ok (fetch r k a).
Proof.
  intros H f Hin. simpl in *. apply in_app_or in Hin.
  destruct Hin as [Hin|[Hin|[]]].
  - specialize (H f Hin). lia.
  - subst f. simpl. lia.
Qed.

Lemma fetches_ok_same a a' :
  in_flight a' = in_flight a -> next_fetch a' = next_fetch a ->
  fetches_ok a -> fetches_ok a'.
Proof.
  intros Hi Hn H f Hin. rewrite Hi in Hin. rewrite Hn. now apply H.
Qed.

Lemma fetches_ok_run_callback cb a :
  fetches_ok a -> fetches_ok (run_callback cb a).
Proof.
  intro H. destruct cb; simpl.
  - now apply fetches_ok_fetch.
  - apply fetches_ok_fetch. now apply (fetches_ok_same a).
Qed.

Lemma fetches_ok_fire_due limit ts a :
  fetches_ok a -> fetches_ok (fire_due limit ts a).
Proof.
  revert a. induction ts as [|t rest IH]; intros a H; simpl; [exact H|].
  destruct (timer_due t <=? limit); [|now apply IH].
  apply IH. apply fetches_ok_run_callback. now apply (fetches_ok_same a).
Qed.

Lemma fetches_ok_resume b k r a :
  fetches_ok a -> fetches_ok (resume b k r a).
Proof.
  intro H. destruct k as [for_complete| | |taskId|]; simpl.
  - assert (G : forall s, fetches_ok (setSaveStatus s a))
      by (intro s; now apply (fetches_ok_same a)).
    destruct r as [[|] d|]; destruct for_complete;
      try apply fetches_ok_fetch; apply G.
  - destruct r as [[|] d|]; try exact H. now apply fetches_ok_fetch.
  - destruct r as [[|] d|]; try exact H.
    set (a1 := with_task _ (with_user _ a)).
    assert (H1 : fetches_ok a1) by now apply (fetches_ok_same a).
    cbn [currentTask a1 with_task].
    destruct (Z.ltb (data_lastTask d) 19); [|exact H1].
    destruct b.
    + apply fetches_ok_fetch. now apply (fetches_ok_same a1).
    + now apply (fetches_ok_same a1).
  - apply fetches_ok_fetch.
    destruct r as [[|] d|]; exact H.
  - exact H.
Qed.

Lemma scheduleAutoSave_fetches a :
  in_flight (scheduleAutoSave a) = in_flight a
  /\ next_fetch (scheduleAutoSave a) = next_fetch a.
Proof.
  unfold scheduleAutoSave. simpl.
  destruct (saveTimer a) as [i|]; [destruct (i =? 0)|]; split; reflexivity.
Qed.

(** The numbering of the fetches is sound in every state a page can
    reach. *)
Lemma fetches_ok_step b a e : fetches_ok a -> fetches_ok (step b a e).
Proof.
  intro H. destruct e as [text| | |taskId|ms|id r]; simpl.
  - destruct (scheduleAutoSave_fetches (with_editor text a)) as [Hi Hn].
    now apply (fetches_ok_same a).
  - now apply fetches_ok_fetch.
  - now apply fetches_ok_fetch.
  - apply fetches_ok_fetch. now apply (fetches_ok_same a).
  - apply (fetches_ok_same (fire_due (clock a + ms) (timers a) a));
      [reflexivity|reflexivity|]. now apply fetches_ok_fire_due.
  - unfold settle. destruct (find _ (in_flight a)) as [f|]; [|exact H].
    apply fetches_ok_resume. intros g Hg. simpl in *.
    apply filter_In in Hg. destruct Hg as [Hg _]. now apply H.
Qed.

Lemma fetches_ok_run b es a : fetches_ok a -> fetches_ok (run b a es).
Proof.
  revert a. induction es as [|e es IH]; intros a H; simpl; [exact H|].
  apply IH. now apply fetches_ok_step.
Qed.

(** ** A pending save and the active task *)

(** When the armed debounce timer is the only timer and fires, the save
    it sends names the task that is active then and carries the text the
    editor holds then. *)
Lemma armed_save_fires b s id due q :
  timers s = [mkTimer id due AutoSave] ->
  due <= clock s + q ->
  sent (step b s (Elapse q))
  = (sent s ++ [FetchSaveText (currentTask s) (editor s)])%list
  /\ currentTask (step b s (Elapse q)) = currentTask s.
Proof.
  intros Ht Hd. cbn [step]. rewrite Ht. cbn [fire_due timer_due].
  replace (due <=? clock s + q) with true
    by (symmetry; now apply Nat.leb_le).
  split; reflexivity.
Qed.

Lemma edit_arms_the_only_timer text a :
  scheduler_ok a ->
  (forall t, In t (timers a) -> timer_callback t = AutoSave) ->
  timers (scheduleAutoSave (with_editor text a))
  = [mkTimer (next_timer a) (clock a + 2000) AutoSave].
Proof.
  intros Hok Hauto.
  assert (Hok0 : scheduler_ok (with_editor text a))
    by now apply (scheduler_ok_same a).
  destruct (scheduleAutoSave_timers _ Hok0) as (pending & Ht & Hp).
  rewrite Ht. destruct pending as [|x l]; [reflexivity|].
  destruct (Hp x (or_introl eq_refl)) as [Hin Hn].
  specialize (Hauto x Hin). congruence.
Qed.

(** X13: the learner types, switches to another task before the debounce
    delay is over, and the delay runs out while the draft of the new task
    is still loading.  The switch does not cancel the timer: the one save
    that follows is sent for the new task and carries the text typed for
    the old one. *)
Theorem pending_save_follows_task_switch b a text t q :
  scheduler_ok a ->
  (forall x, In x (timers a) -> timer_callback x = AutoSave) ->
  2000 <= q ->
  let a' := run b a [Input text; ClickTask t; Elapse q] in
  filter is_save (sent a')
  = (filter is_save (sent a) ++ [FetchSaveText t text])%list
  /\ currentTask a' = t.
Proof.
  intros Hok Hauto Hq a'. unfold a', run. cbn [fold_left].
  pose proof (edit_arms_the_only_timer text a Hok Hauto) as Ht.
  destruct (scheduleAutoSave_frame (with_editor text a))
    as (_ & _ & He & Hc & _ & Hs).
  change (step b a (Input text)) with (scheduleAutoSave (with_editor text a)).
  remember (scheduleAutoSave (with_editor text a)) as s.
  destruct (armed_save_fires b (step b s (ClickTask t)) (next_timer a)
              (clock a + 2000) q) as [E1 E2].
  - exact Ht.
  - cbn. rewrite Hc. cbn. lia.
  - rewrite E1, E2. cbn. rewrite He, Hs. cbn.
    rewrite !filter_app. cbn. rewrite app_nil_r. split; reflexivity.
Qed.

Lemma pending_save_follows_task_switch_witness :
  filter is_save
    (sent (run EmbeddedApp new_app [Input "essay"; ClickTask 2%Z;
                                    Elapse 2000]))
  = [FetchSaveText 2 "essay"].
Proof.
  destruct (pending_save_follows_task_switch EmbeddedApp new_app "essay"
              2%Z 2000) as [H _].
  - exact scheduler_ok_new_app.
  - intros x [].
  - lia.
  - exact H.
Defined.

(** X14: logging out does not cancel the debounce timer either: the save
    that follows is sent for task 1, the task logout resets to, with the
    text still in the editor. *)
Theorem pending_save_survives_logout b a text q :
  scheduler_ok a ->
  (forall x, In x (timers a) -> timer_callback x = AutoSave) ->
  2000 <= q ->
  let a' := step b (logout b true (step b a (Input text))) (Elapse q) in
  filter is_save (sent a')
  = (filter is_save (sent a) ++ [FetchSaveText 1 text])%list
  /\ currentUser a' = None.
Proof.
  intros Hok Hauto Hq a'. unfold a'.
  pose proof (edit_arms_the_only_timer text a Hok Hauto) as Ht.
  destruct (scheduleAutoSave_frame (with_editor text a))
    as (_ & _ & He & Hc & _ & Hs).
  change (step b a (Input text)) with (scheduleAutoSave (with_editor text a)).
  remember (scheduleAutoSave (with_editor text a)) as s.
  assert (L : logout b true s = with_task 1%Z (with_user None s))
    by now destruct b.
  rewrite L.
  destruct (armed_save_fires b (with_task 1%Z (with_user None s))
              (next_timer a) (clock a + 2000) q) as [E1 _].
  - exact Ht.
  - cbn. rewrite Hc. cbn. lia.
  - rewrite E1. cbn. rewrite He, Hs. cbn.
    rewrite !filter_app. cbn. split; [reflexivity|].
    rewrite Ht. cbn [fire_due timer_due].
    destruct (clock a + 2000 <=? clock s + q); reflexivity.
Qed.

Lemma pending_save_survives_logout_witness :
  filter is_save
    (sent (step PublicApp
             (logout PublicApp true
                (step PublicApp (with_task 4%Z new_app) (Input "essay")))
             (Elapse 2000)))
  = [FetchSaveText 1 "essay"].
Proof.
  destruct (pending_save_survives_logout PublicApp (with_task 4%Z new_app)
              "essay" 2000) as [H _].
  - exact scheduler_ok_new_app.
  - intros x [].
  - lia.
  - exact H.
Defined.

(** ** What the answers do *)

(** X15: a task switch sets the active task at once and asks for its
    draft.  When the answer is a success the editor takes the content (the
    empty text for a missing or null content); when it is a refusal or the
    fetch fails the editor keeps the text it had, that of the task left.
    In both cases the last-task update for the new task is sent next. *)
Theorem task_switch_loads_the_draft b a t r :
  fetches_ok a ->
  let a' := run b a [ClickTask t; Settle (next_fetch a) r] in
  currentTask a' = t
  /\ sent a' = (sent a ++ [FetchLoadText t; FetchLastTask t])%list
  /\ editor a' = match r with
                 | Settled true d => content_or_empty d
                 | _ => editor a
                 end.
Proof.
  intros Hok a'. unfold a', run. cbn [fold_left step].
  erewrite (settle_newest b (next_fetch a) _ _ r (in_flight a));
    [|exact Hok|reflexivity].
  cbn [resume]. repeat split.
  - destruct r as [[|] d|]; reflexivity.
  - destruct r as [[|] d|]; cbn; now rewrite <- app_assoc.
  - destruct r as [[|] d|]; reflexivity.
Qed.

Lemma task_switch_loads_the_draft_witness :
  editor (run PublicApp (with_editor "task one" new_app)
            [ClickTask 2%Z; Settle 1 Rejected]) = "task one".
Proof.
  destruct (task_switch_loads_the_draft PublicApp
              (with_editor "task one" new_app) 2%Z Rejected)
    as (_ & _ & H).
  - intros f [].
  - exact H.
Defined.

(** X16: a manual save and its answer.  The status becomes saved on a
    success and error on a refusal or a failed fetch; in no case is the
    save repeated: no further request is sent, no timer is armed, and
    nothing is left in flight. *)
Theorem save_is_not_retried b a r :
  fetches_ok a ->
  let a' := run b a [ClickSave; Settle (next_fetch a) r] in
  saveStatus a' = match r with
                  | Settled true _ => StatusSaved
                  | _ => StatusError
                  end
  /\ sent a'
     = (sent a ++ [FetchSaveText (currentTask a) (editor a)])%list
  /\ timers a' = timers a
  /\ in_flight a' = in_flight a.
Proof.
  intros Hok a'. unfold a', run. cbn [fold_left step].
  erewrite (settle_newest b (next_fetch a) _ _ r (in_flight a));
    [|exact Hok|reflexivity].
  cbn [resume]. destruct r as [[|] d|]; repeat split.
Qed.

Lemma save_is_not_retried_witness :
  saveStatus (run PublicApp new_app
                [ClickSave; Settle 1 (Settled false (mkData None "" 0%Z []))])
  = StatusError.
Proof.
  destruct (save_is_not_retried PublicApp new_app
              (Settled false (mkData None "" 0%Z []))) as (H & _).
  - intros f [].
  - exact H.
Defined.

(** X17: a completion goes on after its save whatever the save's answer
    was, a failure included: the completion mark is sent for the active
    task.  When the mark is refused or its fetch fails, the completion
    stops there: no progress refresh is sent, the active task stays, no
    timer is armed. *)
Theorem completion_stops_at_a_refused_mark b a save_answer mark_answer :
  fetches_ok a ->
  (forall d, mark_answer <> Settled true d) ->
  let a' := run b a [ClickComplete;
                     Settle (next_fetch a) save_answer;
                     Settle (S (next_fetch a)) mark_answer] in
  sent a' = (sent a ++ [FetchSaveText (currentTask a) (editor a);
                        FetchComplete (currentTask a)])%list
  /\ currentTask a' = currentTask a
  /\ timers a' = timers a
  /\ in_flight a' = in_flight a.
Proof.
  intros Hok Hbad a'. unfold a', run. cbn [fold_left step].
  erewrite (settle_newest b (next_fetch a) _ _ save_answer (in_flight a));
    [|exact Hok|reflexivity].
  assert (H1 : forall f, In f (in_flight a) -> fetch_id f < S (next_fetch a))
    by (intros f Hf; specialize (Hok f Hf); lia).
  assert (E : exists ss,
    resume b (InSaveCurrentText true) save_answer
      (with_in_flight (in_flight a) (completeTask a))
    = fetch (FetchComplete (currentTask a)) InCompleteTaskMark
        (setSaveStatus ss
           (with_in_flight (in_flight a) (completeTask a))))
    by (destruct save_answer as [[|] d|]; eexists; reflexivity).
  destruct E as [ss E]. rewrite E.
  erewrite (settle_newest b (S (next_fetch a)) _ _ mark_answer (in_flight a));
    [|exact H1|reflexivity].
  destruct mark_answer as [[|] d|].
  - exfalso. now apply (Hbad d).
  - cbn. rewrite <- app_assoc. repeat split.
  - cbn. rewrite <- app_assoc. repeat split.
Qed.

Lemma completion_stops_at_a_refused_mark_witness :
  sent (run EmbeddedApp new_app
          [ClickComplete; Settle 1 Rejected; Settle 2 Rejected])
  = [FetchSaveText 1 ""; FetchComplete 1].
Proof.
  destruct (completion_stops_at_a_refused_mark EmbeddedApp new_app
              Rejected Rejected) as (H & _).
  - intros f [].
  - discriminate.
  - exact H.
Defined.

Lemma fire_due_two_next_tasks limit ts s n1 n2 d1 d2 :
  (forall t, In t ts -> timer_callback t = AutoSave) ->
  d1 <= limit -> d2 <= limit ->
  currentTask (fire_due limit
                 (ts ++ [mkTimer n1 d1 NextTask; mkTimer n2 d2 NextTask]) s)
  = (currentTask s + 2)%Z.
Proof.
  intros Hauto H1 H2.
  rewrite fire_due_app. cbn [fire_due timer_due timer_callback].
  replace (d1 <=? limit) with true by (symmetry; now apply Nat.leb_le).
  replace (d2 <=? limit) with true by (symmetry; now apply Nat.leb_le).
  cbn. rewrite fire_due_auto_saves by exact Hauto. lia.
Qed.

(** X18: in the copy with the delay, a task that is completed twice
    before the delay is over arms two timers, and when they fire the
    active task has moved on by two: the task after the completed one is
    passed over. *)
Theorem double_completion_skips_a_task a answer1 answer2 refresh1 refresh2 q :
  fetches_ok a ->
  (forall t, In t (timers a) -> timer_callback t = AutoSave) ->
  data_lastTask refresh1 = currentTask a ->
  data_lastTask refresh2 = currentTask a ->
  (currentTask a < 19)%Z ->
  2000 <= q ->
  let a1 := run EmbeddedApp a (completion a answer1 refresh1) in
  let a2 := run EmbeddedApp a1 (completion a1 answer2 refresh2) in
  currentTask a2 = currentTask a
  /\ currentTask (step EmbeddedApp a2 (Elapse q)) = (currentTask a + 2)%Z.
Proof.
  intros Hok Hauto Hr1 Hr2 Hlt Hq a1 a2.
  destruct (completion_result EmbeddedApp a answer1 refresh1 Hok)
    as [Hc1 R1].
  fold a1 in Hc1, R1. rewrite Hr1 in R1.
  replace (Z.ltb (currentTask a) 19) with true in R1
    by (symmetry; now apply Z.ltb_lt).
  destruct R1 as [T1 M1].
  assert (Hok1 : fetches_ok a1) by (unfold a1; now apply fetches_ok_run).
  destruct (completion_result EmbeddedApp a1 answer2 refresh2 Hok1)
    as [Hc2 R2].
  fold a2 in Hc2, R2. rewrite Hr2 in R2.
  replace (Z.ltb (currentTask a) 19) with true in R2
    by (symmetry; now apply Z.ltb_lt).
  destruct R2 as [T2 M2]. clearbody a1 a2.
  split; [exact T2|]. cbn [step].
  change (currentTask (with_clock (clock a2 + q)
            (fire_due (clock a2 + q) (timers a2) a2)))
    with (currentTask (fire_due (clock a2 + q) (timers a2) a2)).
  rewrite M2, M1, <- app_assoc. cbn [List.app].
  rewrite (fire_due_two_next_tasks (clock a2 + q) (timers a) a2
             (next_timer a) (next_timer a1) (clock a + 2000)
             (clock a1 + 2000) Hauto) by lia.
  now rewrite T2.
Qed.

Lemma double_completion_skips_a_task_witness :
  let ok := Settled true (mkData None "" 0%Z []) in
  let refresh := mkData None "alice" 18%Z [(18%Z, 1%Z)] in
  let a := with_task 18%Z new_app in
  let a1 := run EmbeddedApp a (completion a ok refresh) in
  let a2 := run EmbeddedApp a1 (completion a1 ok refresh) in
  currentTask (step EmbeddedApp a2 (Elapse 2000)) = 20%Z.
Proof.
  intros ok refresh a a1 a2.
  destruct (double_completion_skips_a_task a ok ok refresh refresh 2000)
    as [_ H].
  - intros f [].
  - intros t [].
  - reflexivity.
  - reflexivity.
  - simpl. lia.
  - lia.
  - exact H.
Defined.

(** ** The word counter *)

Lemma split_from_length in_run s :
  List.length (split_from in_run s)
  = words_from in_run s
    + (if ends_in_space in_run s then 1 else 0)
    + (if in_run then 0 else 1).
Proof.
  revert in_run. induction s as [|c rest IH]; intro in_run.
  - simpl. destruct in_run; reflexivity.
  - cbn [split_from words_from ends_in_space].
    destruct (is_space c).
    + specialize (IH true). destruct in_run; simpl; rewrite IH; lia.
    + specialize (IH false).
      destruct (split_from false rest) as [|piece pieces] eqn:E.
      * simpl in IH. destruct (ends_in_space false rest); lia.
      * change (List.length (String c piece :: pieces))
          with (List.length (piece :: pieces)).
        rewrite IH. destruct in_run; lia.
Qed.

Lemma words_trimStart s : words_from true (trimStart s) = words_from true s.
Proof.
  induction s as [|c rest IH]; [reflexivity|]. simpl.
  destruct (is_space c) eqn:E; [exact IH|]. simpl. now rewrite E.
Qed.

Lemma words_trimEnd s : forall prev, words_from prev (trimEnd s)
                                     = words_from prev s.
Proof.
  induction s as [|c rest IH]; intro prev; [reflexivity|].
  cbn [trimEnd words_from].
  destruct (trimEnd rest) as [|c' kept] eqn:E.
  - destruct (is_space c) eqn:S.
    + rewrite <- IH. reflexivity.
    + simpl. rewrite S, <- IH. reflexivity.
  - cbn [words_from]. destruct (is_space c); now rewrite <- IH.
Qed.

Lemma trimEnd_ends s : forall in_run,
  trimEnd s <> EmptyString -> ends_in_space in_run (trimEnd s) = false.
Proof.
  induction s as [|c rest IH]; intros in_run H; [now elim H|].
  cbn [trimEnd] in *.
  destruct (trimEnd rest) as [|c' kept] eqn:E.
  - destruct (is_space c) eqn:S; [now elim H|]. simpl. exact S.
  - cbn [ends_in_space]. apply (IH (is_space c)). discriminate.
Qed.

Lemma trimEnd_keeps_head c rest :
  is_space c = false -> trimEnd (String c rest) = String c (trimEnd rest).
Proof.
  intro H. cbn [trimEnd]. destruct (trimEnd rest); [now rewrite H|].
  reflexivity.
Qed.

Lemma trimStart_head s :
  trimStart s = EmptyString
  \/ exists c rest, trimStart s = String c rest /\ is_space c = false.
Proof.
  induction s as [|c rest IH]; [now left|]. simpl.
  destruct (is_space c) eqn:E; [exact IH|]. right. eauto.
Qed.

Lemma wordCount_words value : wordCount value = words value.
Proof.
  unfold wordCount, words, trim.
  rewrite <- (words_trimStart value).
  destruct (trimStart_head value) as [E|(c & rest & E & S)]; rewrite E.
  - reflexivity.
  - rewrite <- (words_trimEnd (String c rest) true).
    pose proof (trimEnd_ends (String c rest) false) as He.
    rewrite (trimEnd_keeps_head c rest S) in *.
    unfold split_spaces. rewrite split_from_length, He by discriminate.
    cbn [words_from]. rewrite S. lia.
Qed.

(** X19: the number the word counter shows is the number of words of the
    editor's text, a word being a longest run of characters that are no
    white space: white space before, after and between the words, of any
    length, does not count, and a text of white space only has 0 words.
    The counter is red when that number is below the lower target, yellow
    when it is above the upper one (and not below the lower), and green
    otherwise. *)
Theorem word_counter_counts_words value min max :
  wordCount value = words value
  /\ (count_colour (wordCount value) min max = Red <-> words value < min)
  /\ (count_colour (wordCount value) min max = Yellow
      <-> min <= words value /\ max < words value)
  /\ (count_colour (wordCount value) min max = Green
      <-> min <= words value <= max).
Proof.
  rewrite wordCount_words. unfold count_colour.
  split; [reflexivity|].
  destruct (words value <? min) eqn:A;
    [apply Nat.ltb_lt in A|apply Nat.ltb_ge in A];
    (destruct (max <? words value) eqn:B;
     [apply Nat.ltb_lt in B|apply Nat.ltb_ge in B]);
    repeat split; intros; try discriminate; try lia; try reflexivity.
Qed.

(** The count of some texts. *)
Lemma word_counts_of_samples :
  wordCount "" = 0
  /\ wordCount "   " = 0
  /\ wordCount "  one   two three " = 3
  /\ split_spaces " a  b" = [""; "a"; "b"].
Proof. repeat split. Qed.

Lemma word_counter_counts_words_witness :
  count_colour (wordCount "  one   two three ") 2 5 = Green.
Proof.
  destruct (word_counter_counts_words "  one   two three " 2 5)
    as (_ & _ & _ & H).
  apply H. vm_compute. split; repeat constructor.
Defined.

(** ** The login form *)

Local Open Scope Z_scope.

Lemma find_by_own_id (u : user_row) (l : list user_row) :
  NoDup (map user_id l) -> In u l ->
  find (fun x => String.eqb (user_id x) (user_id u)) l = Some u.
Proof.
  induction l as [|x l IH]; intros Hn Hin; [contradiction|].
  simpl in *. inversion Hn as [|k ks Hk Hks]; subst.
  destruct Hin as [->|Hin].
  - now rewrite String.eqb_refl.
  - destruct (String.eqb (user_id x) (user_id u)) eqn:E.
    + apply String.eqb_eq in E. exfalso. apply Hk. rewrite E.
      now apply in_map.
    + now apply IH.
Qed.

(** A request that carries a token signed less than thirty days before is
    handled as its route handles the learner of the token. *)
Lemma handle_with_fresh_token secret uuid' t0 now uid route taskId db :
  now < t0 + THIRTY_DAYS ->
  let req := mkReq route (authorization_of (Some (jwt_sign uid secret t0)))
               None taskId None in
  handle secret (mkArrival now uuid' req) db
  = match route with
    | PostAuthRegister => post_auth_register secret now uuid' req db
    | PostAuthLogin => post_auth_login secret now req db
    | GetUserProgress => get_user_progress uid db
    | PostUserLastTask => post_user_last_task req uid db
    | PostTaskText t => post_task_text now t req uid db
    | GetTaskText t => get_task_text t uid db
    | PostTaskComplete t => post_task_complete now t uid db
    end.
Proof.
  intros Ht req. unfold handle.
  cbn [arrival_request arrival_now arrival_uuid].
  destruct route; subst req; cbn [req_route]; try reflexivity;
    rewrite (verifyToken_signed secret now _ _ db uid t0) by reflexivity;
    replace (Z.ltb now (t0 + THIRTY_DAYS)) with true
      by (symmetry; now apply Z.ltb_lt);
    reflexivity.
Qed.

Lemma refresh_with_fresh_token secret uuid' t0 now uid u db :
  now < t0 + THIRTY_DAYS ->
  select_user_by_id uid db = Some u ->
  handle secret
    (mkArrival now uuid'
       (request_of (Some (jwt_sign uid secret t0)) FetchProgress)) db
  = (Reply 200 (JProgress (user_username u)
                  (js_or (user_last_task u) (SqlInt 1))
                  (select_progress uid db)), db).
Proof.
  intros Ht Hu. cbn [request_of].
  rewrite (handle_with_fresh_token secret uuid' t0 now uid GetUserProgress
             SqlNull db Ht).
  unfold get_user_progress. now rewrite Hu.
Qed.

(** Reads an answer of status 200 as [response.ok]. *)
Ltac accepted :=
  cbn [fst snd]; replace (status_ok 200) with true by reflexivity;
  cbn [fst snd].

Lemma js_or_one_truthy v : js_truthy (js_or v (SqlInt 1)) = true.
Proof. unfold js_or. now destruct (js_truthy v) eqn:E. Qed.

Lemma js_or_of_truthy v d : js_truthy v = true -> js_or v d = v.
Proof. unfold js_or. now intros ->. Qed.

(** Writing back the last task a learner has changes nothing. *)
Lemma update_last_task_same uid u db :
  NoDup (map user_id (users db)) ->
  select_user_by_id uid db = Some u ->
  update_last_task (user_last_task u) uid db = db.
Proof.
  unfold select_user_by_id, update_last_task. intros Hn Hu.
  destruct db as [us ts sq ps]. cbn [users texts texts_seq progress] in *.
  f_equal. rewrite <- (map_id us) at 2. apply map_ext_in. intros x Hx.
  destruct (String.eqb (user_id x) uid) eqn:E; [|reflexivity].
  apply String.eqb_eq in E. subst uid.
  rewrite (find_by_own_id x us Hn Hx) in Hu. injection Hu as <-.
  now destruct x.
Qed.

Lemma update_last_task_ids v uid db :
  map user_id (users (update_last_task v uid db)) = map user_id (users db).
Proof.
  unfold update_last_task. cbn [users]. rewrite map_map. apply map_ext.
  intro x. now destruct (String.eqb (user_id x) uid).
Qed.

Lemma update_last_task_by_name v uid name u db :
  select_user_by_username name db = Some u ->
  user_id u = uid ->
  select_user_by_username name (update_last_task v uid db)
  = Some (mkUser uid (user_username u) (user_created_at u) v).
Proof.
  unfold select_user_by_username, update_last_task. intros Hu Hid.
  cbn [users]. rewrite find_map_same.
  - rewrite Hu. cbn [option_map]. rewrite Hid, String.eqb_refl.
    reflexivity.
  - intro x. now destruct (String.eqb (user_id x) uid).
Qed.

(** [loadTask] after the progress has been read: whatever the page does
    with the identifier, the database ends with that identifier as the
    learner's last task; an identifier that is a whole number brings the
    first draft of that task into the editor. *)
Lemma showCourseScreen_result secret clock uuid reading t0 uid name lastTask
    entries db :
  at_text clock < t0 + THIRTY_DAYS ->
  at_last_task clock < t0 + THIRTY_DAYS ->
  (forall u, select_user_by_id uid db = Some u ->
             NoDup (map user_id (users db)) /\ user_last_task u = lastTask)
  \/ loadTask_of reading lastTask <> Aborts ->
  exists draft,
    showCourseScreen secret clock uuid reading (jwt_sign uid secret t0) name
      lastTask entries db
    = (Course (jwt_sign uid secret t0) name lastTask entries draft,
       update_last_task lastTask uid db)
    /\ (forall z, lastTask = SqlInt z ->
                  draft = Some (first_draft uid (TaskInt z) db)).
Proof.
  intros Ht Hl Hsame. unfold showCourseScreen.
  assert (P : snd (handle secret
                     (mkArrival (at_last_task clock) uuid
                        (mkReq PostUserLastTask
                           (authorization_of (Some (jwt_sign uid secret t0)))
                           None lastTask None)) db)
              = update_last_task lastTask uid db).
  { now rewrite (handle_with_fresh_token secret uuid t0 _ uid
                   PostUserLastTask lastTask db Hl). }
  assert (T : forall k,
             handle secret
               (mkArrival (at_text clock) uuid
                  (mkReq (GetTaskText k)
                     (authorization_of (Some (jwt_sign uid secret t0)))
                     None SqlNull None)) db
             = get_task_text k uid db).
  { intro k. now rewrite (handle_with_fresh_token secret uuid t0 _ uid
                            (GetTaskText k) SqlNull db Ht). }
  assert (D : forall k,
             editor_after (fst (get_task_text k uid db))
             = Some (first_draft uid k db)).
  { intro k. unfold get_task_text, editor_after, first_draft.
    cbn [fst text_response]. replace (status_ok 200) with true by reflexivity.
    unfold content_or_empty. cbn [data_content].
    now destruct (select_text uid k db) as [r|]. }
  destruct (loadTask_of reading lastTask) as [|k| | |] eqn:E.
  - exists None. split.
    + f_equal. destruct Hsame as [Hsame|C]; [|now elim C].
      destruct (select_user_by_id uid db) as [u|] eqn:Hu.
      * destruct (Hsame u eq_refl) as [Hn Hv]. subst lastTask.
        symmetry. now apply update_last_task_same.
      * symmetry. now apply update_last_task_unknown.
    + intros z Hz. subst lastTask. discriminate.
  - exists (Some (first_draft uid k db)). rewrite T. split.
    + cbn [fst snd]. rewrite D. unfold get_task_text at 1. cbn [snd].
      now rewrite P.
    + intros z Hz. subst lastTask. cbn [loadTask_of] in E.
      now injection E as <-.
  - rewrite (handle_with_fresh_token secret uuid t0 _ uid GetUserProgress
               SqlNull db Ht).
    assert (G : snd (get_user_progress uid db) = db).
    { unfold get_user_progress.
      now destruct (select_user_by_id uid db). }
    exists (editor_after (fst (get_user_progress uid db))). split.
    + cbn [fst snd]. now rewrite G, P.
    + intros z Hz. subst lastTask. discriminate.
  - exists (Some ""). split.
    + cbn [fst snd]. now rewrite P.
    + intros z Hz. subst lastTask. discriminate.
  - exists None. split.
    + cbn [fst snd]. now rewrite P.
    + intros z Hz. subst lastTask. discriminate.
Qed.

(** The form with the name of a learner: the login is accepted. *)
Lemma handleAuth_known secret clock uuid reading typed db u :
  (3 <= String.length (trim typed))%nat ->
  NoDup (map user_id (users db)) ->
  token_lasts clock ->
  select_user_by_username (trim typed) db = Some u ->
  let lastTask := js_or (user_last_task u) (SqlInt 1) in
  exists draft,
    handleAuth secret clock uuid reading typed db
    = (Course (jwt_sign (user_id u) secret (at_login clock)) (trim typed)
         lastTask (select_progress (user_id u) db) draft,
       update_last_task lastTask (user_id u) db)
    /\ (forall z, lastTask = SqlInt z ->
                  draft = Some (first_draft (user_id u) (TaskInt z) db)).
Proof.
  intros Hlen Hn Ht Hu lastTask. unfold handleAuth.
  replace (Nat.ltb (String.length (trim typed)) 3) with false
    by (symmetry; now apply Nat.ltb_ge).
  assert (N : user_username u = trim typed).
  { unfold select_user_by_username in Hu. apply find_some in Hu.
    now apply String.eqb_eq. }
  assert (I : select_user_by_id (user_id u) db = Some u).
  { apply find_by_own_id; [exact Hn|].
    unfold select_user_by_username in Hu. now apply find_some in Hu. }
  assert (L : handle secret
                (mkArrival (at_login clock) uuid
                   (mkReq PostAuthLogin None (Some (trim typed)) SqlNull
                      None)) db
              = (Reply 200 (JAuth (jwt_sign (user_id u) secret
                                     (at_login clock))
                              (user_username u) (user_id u)
                              (js_or (user_last_task u) (SqlInt 1))), db)).
  { unfold handle, post_auth_login. cbn. now rewrite Hu. }
  unfold token_lasts in Ht. cbv zeta in Ht.
  rewrite L. accepted.
  rewrite (refresh_with_fresh_token secret uuid (at_login clock)
             (at_progress clock) (user_id u) u db ltac:(lia) I).
  accepted. rewrite N. fold lastTask.
  destruct (js_truthy (user_last_task u)) eqn:V.
  - apply showCourseScreen_result; try lia.
    left. intros u' Hu'. rewrite I in Hu'. injection Hu' as <-.
    split; [exact Hn|]. unfold lastTask. now rewrite js_or_of_truthy.
  - apply showCourseScreen_result; try lia.
    right. unfold lastTask, js_or. rewrite V. discriminate.
Qed.

(** The form with a new name: the login is refused, the registration is
    accepted. *)
Lemma handleAuth_new secret clock uuid reading typed db :
  (3 <= String.length (trim typed))%nat ->
  select_user_by_id uuid db = None ->
  token_lasts clock ->
  select_user_by_username (trim typed) db = None ->
  let added := mkDb (users db
                     ++ [mkUser uuid (trim typed) (at_register clock)
                           (SqlInt 1)])
                    (texts db) (texts_seq db) (progress db) in
  handleAuth secret clock uuid reading typed db
  = (Course (jwt_sign uuid secret (at_register clock)) (trim typed)
       (SqlInt 1) (select_progress uuid db)
       (Some (first_draft uuid (TaskInt 1) db)),
     update_last_task (SqlInt 1) uuid added).
Proof.
  intros Hlen Hid Ht Hu added. unfold handleAuth.
  replace (Nat.ltb (String.length (trim typed)) 3) with false
    by (symmetry; now apply Nat.ltb_ge).
  assert (L : handle secret
                (mkArrival (at_login clock) uuid
                   (mkReq PostAuthLogin None (Some (trim typed)) SqlNull
                      None)) db
              = (Reply 404 (JError "User not found"), db)).
  { unfold handle, post_auth_login. cbn. now rewrite Hu. }
  rewrite L. cbn [fst snd].
  replace (status_ok 404) with false by reflexivity.
  assert (R : handle secret
                (mkArrival (at_register clock) uuid
                   (mkReq PostAuthRegister None (Some (trim typed)) SqlNull
                      None)) db
              = (Reply 200 (JAuth (jwt_sign uuid secret (at_register clock))
                              (trim typed) uuid (SqlInt 1)), added)).
  { unfold handle, post_auth_register.
    cbn [req_route arrival_request arrival_now arrival_uuid body_username].
    replace (String.eqb (trim typed) ""
             || Nat.ltb (String.length (trim typed)) 3)%bool with false.
    - now rewrite (insert_user_fresh _ _ _ _ Hu Hid).
    - symmetry. apply orb_false_iff. split.
      + apply String.eqb_neq. intro E. rewrite E in Hlen. simpl in Hlen. lia.
      + now apply Nat.ltb_ge. }
  rewrite R. accepted.
  assert (I : select_user_by_id uuid added
              = Some (mkUser uuid (trim typed) (at_register clock)
                        (SqlInt 1))).
  { unfold select_user_by_id in *. unfold added. simpl.
    rewrite find_append, Hid. simpl. now rewrite String.eqb_refl. }
  unfold token_lasts in Ht. cbv zeta in Ht.
  rewrite (refresh_with_fresh_token secret uuid (at_register clock)
             (at_progress clock) uuid _ added ltac:(lia) I).
  accepted. cbn [user_username user_last_task].
  change (js_or (SqlInt 1) (SqlInt 1)) with (SqlInt 1).
  destruct (showCourseScreen_result secret clock uuid reading
              (at_register clock) uuid (trim typed) (SqlInt 1)
              (select_progress uuid added) added)
    as (draft & E & D); [lia | lia | right; discriminate |].
  rewrite E, (D 1 eq_refl). reflexivity.
Qed.

Lemma unknown_id_not_in uuid db :
  select_user_by_id uuid db = None -> ~ In uuid (map user_id (users db)).
Proof.
  unfold select_user_by_id. intros H Hin.
  apply in_map_iff in Hin. destruct Hin as (u & Hu & Hin).
  apply (find_none _ _ H) in Hin. rewrite Hu, String.eqb_refl in Hin.
  discriminate.
Qed.

(** A learner just added, with 1 as the last task, is not changed by the
    page writing 1 back. *)
Lemma update_last_task_added uuid name now db :
  NoDup (map user_id (users db)) ->
  select_user_by_id uuid db = None ->
  let added := mkDb (users db ++ [mkUser uuid name now (SqlInt 1)])
                    (texts db) (texts_seq db) (progress db) in
  NoDup (map user_id (users added))
  /\ update_last_task (SqlInt 1) uuid added = added.
Proof.
  intros Hn Hid added.
  assert (Hn1 : NoDup (map user_id (users added))).
  { unfold added. simpl. rewrite map_app. simpl.
    apply NoDup_append_new; [|exact Hn]. now apply unknown_id_not_in. }
  split; [exact Hn1|].
  apply (update_last_task_same uuid (mkUser uuid name now (SqlInt 1)) added
           Hn1).
  unfold select_user_by_id in *. unfold added. simpl.
  rewrite find_append, Hid. simpl. now rewrite String.eqb_refl.
Qed.

(** X20: the login form, followed to the end of [loadTask].  A name of
    fewer than three characters, white space at both ends not counted, is
    refused on the page: no request is made.  Any other name enters the
    course, by login when a learner of that name exists and by
    registration when none does (the learner is added, and nothing else
    changes); the token put into storage verifies to the learner of that
    name, the entries come in the order of the task identifiers, the
    course opens at the learner's last task, or at 1 where that is 0,
    NULL or empty, and the page writes that task back as the last task:
    a login changes the database exactly when the stored last task was
    0, NULL or empty, which then becomes 1.  Where the task is a whole
    number the editor shows the first draft stored for it.  (Identifiers
    in the database are distinct, the generated identifier is new, and
    the requests fall within the token's thirty days.) *)
Theorem login_form_enters_the_course secret clock uuid reading typed db :
  NoDup (map user_id (users db)) ->
  select_user_by_id uuid db = None ->
  token_lasts clock ->
  let name := trim typed in
  let out := handleAuth secret clock uuid reading typed db in
  ((String.length name < 3)%nat ->
     out = (WelcomeWithError
              "Benutzername muss mindestens 3 Zeichen lang sein." None, db))
  /\ ((3 <= String.length name)%nat ->
      exists token u draft,
        let lastTask := js_or (user_last_task u) (SqlInt 1) in
        fst out = Course token name lastTask
                    (select_progress (user_id u) db) draft
        /\ select_user_by_username name (snd out)
           = Some (mkUser (user_id u) name (user_created_at u) lastTask)
        /\ jwt_verify token secret (at_last_task clock) = Some (user_id u)
        /\ (forall z, lastTask = SqlInt z ->
              draft = Some (first_draft (user_id u) (TaskInt z) db))
        /\ (select_user_by_username name db <> None ->
              select_user_by_username name db = Some u
              /\ snd out = update_last_task lastTask (user_id u) db
              /\ (js_truthy (user_last_task u) = true -> snd out = db))
        /\ (select_user_by_username name db = None ->
              u = mkUser uuid name (at_register clock) (SqlInt 1)
              /\ snd out = mkDb (users db ++ [u]) (texts db) (texts_seq db)
                             (progress db))).
Proof.
  intros Hn Hid Ht name out. split.
  - intro Hs. unfold out, handleAuth. fold name.
    replace (Nat.ltb (String.length name) 3) with true
      by (symmetry; now apply Nat.ltb_lt).
    reflexivity.
  - intro Hl. unfold out.
    assert (Ht' := Ht). unfold token_lasts in Ht'. cbv zeta in Ht'.
    destruct (select_user_by_username name db) as [u|] eqn:Hu.
    + destruct (handleAuth_known secret clock uuid reading typed db u Hl Hn
                  Ht Hu) as (draft & E & D).
      rewrite E.
      exists (jwt_sign (user_id u) secret (at_login clock)), u, draft.
      cbv zeta. cbn [fst snd].
      assert (N : user_username u = name).
      { unfold select_user_by_username in Hu. apply find_some in Hu.
        now apply String.eqb_eq. }
      assert (I : select_user_by_id (user_id u) db = Some u).
      { apply find_by_own_id; [exact Hn|].
        unfold select_user_by_username in Hu. now apply find_some in Hu. }
      split; [reflexivity|]. split.
      { rewrite (update_last_task_by_name _ (user_id u) name u db Hu eq_refl).
        now rewrite N. }
      split.
      { rewrite jwt_verify_sign.
        replace (Z.ltb (at_last_task clock) (at_login clock + THIRTY_DAYS))
          with true; [reflexivity|].
        symmetry. apply Z.ltb_lt. lia. }
      split; [exact D|]. split; [|discriminate].
      intros _. split; [reflexivity|]. split; [reflexivity|].
      intro V. rewrite (js_or_of_truthy _ _ V).
      now apply update_last_task_same.
    + rewrite (handleAuth_new secret clock uuid reading typed db Hl Hid Ht
                 Hu).
      fold name.
      destruct (update_last_task_added uuid name (at_register clock) db Hn
                  Hid) as [_ U].
      cbv zeta in U. rewrite U.
      exists (jwt_sign uuid secret (at_register clock)),
             (mkUser uuid name (at_register clock) (SqlInt 1)),
             (Some (first_draft uuid (TaskInt 1) db)).
      cbv zeta. cbn [fst snd user_id user_last_task user_created_at].
      change (js_or (SqlInt 1) (SqlInt 1)) with (SqlInt 1).
      split; [reflexivity|]. split.
      { unfold select_user_by_username in *. simpl.
        rewrite find_append, Hu. simpl. now rewrite String.eqb_refl. }
      split.
      { rewrite jwt_verify_sign.
        replace (Z.ltb (at_last_task clock)
                   (at_register clock + THIRTY_DAYS))
          with true; [reflexivity|].
        symmetry. apply Z.ltb_lt. lia. }
      split.
      { intros z Hz. now injection Hz as <-. }
      split; [intro C; now elim C|].
      intros _. split; reflexivity.
Qed.

Lemma login_form_enters_the_course_witness :
  let clock := mkAuthClock 2000 2001 2002 2003 2004 in
  let zeroed := update_last_task (SqlInt 0) "uuid-alice" alice_and_bob in
  handleAuth (JWT_SECRET None) clock "uuid-2" (fun _ => Aborts) " al  "
    alice_and_bob
  = (WelcomeWithError "Benutzername muss mindestens 3 Zeichen lang sein."
       None, alice_and_bob)
  /\ (exists token u draft,
        fst (handleAuth (JWT_SECRET None) clock "uuid-carol"
               (fun _ => Aborts) "  carol " alice_and_bob)
        = Course token "carol" (SqlInt 1) [] draft
        /\ jwt_verify token (JWT_SECRET None) 2004 = Some (user_id u)
        /\ u = mkUser "uuid-carol" "carol" 2001 (SqlInt 1))
  /\ snd (handleAuth (JWT_SECRET None) clock "uuid-2" (fun _ => Aborts)
            "alice" zeroed)
     = alice_and_bob.
Proof.
  intros clock zeroed.
  assert (N : NoDup (map user_id (users alice_and_bob))).
  { vm_compute. repeat constructor; simpl; intuition discriminate. }
  assert (T : token_lasts clock) by (vm_compute; split; reflexivity).
  split; [|split].
  - destruct (login_form_enters_the_course (JWT_SECRET None) clock "uuid-2"
                (fun _ => Aborts) " al  " alice_and_bob N eq_refl T)
      as [H _].
    apply H. vm_compute. repeat constructor.
  - destruct (login_form_enters_the_course (JWT_SECRET None) clock
                "uuid-carol" (fun _ => Aborts) "  carol " alice_and_bob N
                eq_refl T) as [_ H].
    destruct H as (token & u & draft & E & _ & V & _ & _ & A).
    + vm_compute. repeat constructor.
    + destruct (A eq_refl) as [Eu _]. exists token, u, draft.
      rewrite Eu in E. split; [exact E|]. split; [exact V | exact Eu].
  - destruct (login_form_enters_the_course (JWT_SECRET None) clock "uuid-2"
                (fun _ => Aborts) "alice" zeroed N eq_refl T) as [_ H].
    destruct H as (token & u & draft & _ & _ & _ & _ & K & _).
    + vm_compute. repeat constructor.
    + destruct K as (Eu & D & _); [discriminate|].
      injection Eu as <-. exact D.
Defined.

(** X21: a learner who enters a name a second time comes back to the
    same account: the first use of the form and any later one (whatever
    identifier would be generated then, and whatever the page does with a
    last task that is a text) end in the course with tokens for one and
    the same learner identifier and at the same task, and the second
    leaves the database as the first left it. *)
Theorem second_visit_finds_the_account secret clock clock' uuid uuid'
    reading reading' typed db :
  NoDup (map user_id (users db)) ->
  select_user_by_id uuid db = None ->
  (3 <= String.length (trim typed))%nat ->
  token_lasts clock -> token_lasts clock' ->
  let first := handleAuth secret clock uuid reading typed db in
  let second := handleAuth secret clock' uuid' reading' typed (snd first) in
  exists uid iat lastTask entries1 draft1 entries2 draft2,
    fst first = Course (Signed secret uid iat) (trim typed) lastTask
                  entries1 draft1
    /\ fst second = Course (Signed secret uid (at_login clock'))
                      (trim typed) lastTask entries2 draft2
    /\ entries2 = entries1
    /\ snd second = snd first.
Proof.
  intros Hn Hid Hl Ht Ht' first second.
  assert (Again : forall db0 u,
             NoDup (map user_id (users db0)) ->
             select_user_by_username (trim typed) db0 = Some u ->
             js_truthy (user_last_task u) = true ->
             exists draft,
               handleAuth secret clock' uuid' reading' typed db0
               = (Course (jwt_sign (user_id u) secret (at_login clock'))
                    (trim typed) (user_last_task u)
                    (select_progress (user_id u) db0) draft, db0)).
  { intros db0 u Hn0 Hu0 V.
    destruct (handleAuth_known secret clock' uuid' reading' typed db0 u Hl
                Hn0 Ht' Hu0) as (draft & E & _).
    exists draft. rewrite E. rewrite (js_or_of_truthy _ _ V). f_equal.
    apply update_last_task_same; [exact Hn0|].
    apply find_by_own_id; [exact Hn0|].
    unfold select_user_by_username in Hu0. now apply find_some in Hu0. }
  unfold second, first.
  destruct (select_user_by_username (trim typed) db) as [u|] eqn:Hu.
  - destruct (handleAuth_known secret clock uuid reading typed db u Hl Hn Ht
                Hu) as (draft & E & _).
    rewrite E. cbn [fst snd].
    set (lastTask := js_or (user_last_task u) (SqlInt 1)).
    set (db1 := update_last_task lastTask (user_id u) db).
    assert (Hn1 : NoDup (map user_id (users db1)))
      by (unfold db1; now rewrite update_last_task_ids).
    assert (Hu1 := update_last_task_by_name lastTask (user_id u)
                     (trim typed) u db Hu eq_refl).
    fold db1 in Hu1.
    destruct (Again db1 _ Hn1 Hu1) as (draft2 & E2).
    { apply js_or_one_truthy. }
    rewrite E2. cbn [fst snd user_id user_last_task]. unfold jwt_sign.
    exists (user_id u), (at_login clock), lastTask,
           (select_progress (user_id u) db), draft,
           (select_progress (user_id u) db1), draft2.
    repeat split.
  - rewrite (handleAuth_new secret clock uuid reading typed db Hl Hid Ht Hu).
    destruct (update_last_task_added uuid (trim typed) (at_register clock)
                db Hn Hid) as [Hn1 U].
    cbv zeta in U, Hn1. rewrite U. cbn [fst snd].
    set (u := mkUser uuid (trim typed) (at_register clock) (SqlInt 1)).
    set (db1 := mkDb (users db ++ [u]) (texts db) (texts_seq db)
                     (progress db)).
    assert (Hu1 : select_user_by_username (trim typed) db1 = Some u).
    { unfold select_user_by_username in *. unfold db1. simpl.
      rewrite find_append, Hu. simpl. now rewrite String.eqb_refl. }
    destruct (Again db1 u Hn1 Hu1 eq_refl) as (draft2 & E2).
    rewrite E2. cbn [fst snd user_id user_last_task u]. unfold jwt_sign.
    exists uuid, (at_register clock), (SqlInt 1),
           (select_progress uuid db),
           (Some (first_draft uuid (TaskInt 1) db)),
           (select_progress uuid db1), draft2.
    repeat split.
Qed.

Lemma second_visit_finds_the_account_witness :
  let clock := mkAuthClock 2000 2001 2002 2003 2004 in
  let clock' := mkAuthClock 9000 9001 9002 9003 9004 in
  let zeroed := update_last_task (SqlInt 0) "uuid-alice" alice_and_bob in
  let first := handleAuth (JWT_SECRET None) clock "uuid-2" (fun _ => Aborts)
                 "alice" zeroed in
  let second := handleAuth (JWT_SECRET None) clock' "uuid-other"
                  (fun _ => ReachesNoJson) "alice" (snd first) in
  exists uid iat lastTask entries1 draft1 entries2 draft2,
    fst first = Course (Signed (JWT_SECRET None) uid iat) "alice" lastTask
                  entries1 draft1
    /\ fst second = Course (Signed (JWT_SECRET None) uid 9000) "alice"
                      lastTask entries2 draft2
    /\ entries2 = entries1
    /\ snd second = snd first.
Proof.
  intros clock clock' zeroed first second.
  assert (N : NoDup (map user_id (users zeroed))).
  { vm_compute. repeat constructor; simpl; intuition discriminate. }
  apply (second_visit_finds_the_account (JWT_SECRET None) clock clock'
           "uuid-2" "uuid-other" (fun _ => Aborts) (fun _ => ReachesNoJson)
           "alice" zeroed N eq_refl).
  - vm_compute. repeat constructor.
  - vm_compute. split; reflexivity.
  - vm_compute. split; reflexivity.
Defined.

(** ** A draft, from the editor to the table and back *)

Lemma request_of_token stored r :
  bearer_token (request_of (Some stored) r) = Some stored.
Proof. destruct r; reflexivity. Qed.

(** X22: the page saves a text for a task, and later a page of the same
    learner opens that task.  The save is accepted.  The editor then
    shows the text that was saved only when the task had no draft before;
    when it had one, the editor shows the content of that first draft (the
    empty text when that content is NULL), not the text just saved. *)
Theorem reload_shows_the_first_draft secret stored uid b a t text
    now1 now2 uuid1 uuid2 db :
  jwt_verify stored secret now1 = Some uid ->
  jwt_verify stored secret now2 = Some uid ->
  fetches_ok a ->
  let saved := handle secret
                 (mkArrival now1 uuid1
                    (request_of (Some stored) (FetchSaveText t text))) db in
  let loaded := handle secret
                  (mkArrival now2 uuid2
                     (request_of (Some stored) (FetchLoadText t)))
                  (snd saved) in
  let a' := run b a [ClickTask t;
                     Settle (next_fetch a) (text_response (fst loaded))] in
  fst saved = Reply 200 JSuccess
  /\ editor a' = match select_text uid (TaskInt t) db with
                 | Some first => match text_content first with
                                 | Some c => c
                                 | None => ""
                                 end
                 | None => text
                 end.
Proof.
  intros V1 V2 Hok saved loaded a'.
  assert (S : saved = (Reply 200 JSuccess,
                       insert_or_replace_text uid (TaskInt t) (Some text)
                         now1 db)).
  { unfold saved, handle. cbn [req_route arrival_request request_of].
    now rewrite (verifyToken_pass secret _ _ _ db stored uid
                   (request_of_token stored (FetchSaveText t text)) V1). }
  assert (L : fst loaded
              = Reply 200 (JContent
                  match select_text uid (TaskInt t) db with
                  | Some first => text_content first
                  | None => Some text
                  end)).
  { unfold loaded, handle. rewrite S.
    cbn [req_route arrival_request request_of snd].
    rewrite (verifyToken_pass secret _ _ _ _ stored uid
               (request_of_token stored (FetchLoadText t)) V2).
    unfold get_task_text, select_text. cbn [fst texts insert_or_replace_text].
    rewrite find_append.
    destruct (find _ (texts db)); [reflexivity|].
    cbn. now rewrite String.eqb_refl, Z.eqb_refl. }
  split; [now rewrite S|].
  unfold a', run. cbn [fold_left step].
  erewrite (settle_newest b (next_fetch a) _ _ _ (in_flight a));
    [|exact Hok|reflexivity].
  rewrite L. cbn [text_response].
  replace (status_ok 200) with true by reflexivity.
  cbn [resume]. cbn.
  destruct (select_text uid (TaskInt t) db); reflexivity.
Qed.

Lemma reload_shows_the_first_draft_witness :
  let saved := handle (JWT_SECRET None)
                 (mkArrival 1005 "unused"
                    (request_of (Some bob_token)
                       (FetchSaveText 1 "bob's new text"))) alice_and_bob in
  let loaded := handle (JWT_SECRET None)
                  (mkArrival 1006 "unused"
                     (request_of (Some bob_token) (FetchLoadText 1)))
                  (snd saved) in
  editor (run PublicApp new_app
            [ClickTask 1%Z; Settle 1%nat (text_response (fst loaded))])
  = "bob's text".
Proof.
  intros saved loaded.
  destruct (reload_shows_the_first_draft (JWT_SECRET None) bob_token
              "uuid-bob" PublicApp new_app 1 "bob's new text" 1005 1006
              "unused" "unused" alice_and_bob eq_refl eq_refl) as [_ H].
  - intros f [].
  - exact H.
Defined.
